(** * pirevision: decoding Raspberry Pi revision codes

    A shallow embedding of [pirevision.c].  A [revcode_32] is a C
    [unsigned int]; it is modelled as a [Z] in the range [0 .. 2^32 - 1].
    Lookup tables are lists, reads of an array outside its initialiser
    are undefined behaviour and are modelled by [None].  The functions
    that print or call [exit] live in a small state-and-exit monad over
    the two output streams. *)

From Stdlib Require Import ZArith List String Ascii Lia Bool.
Import ListNotations.

Local Open Scope string_scope.
Local Open Scope Z_scope.

(** ** C integer types *)

Module CInt.

(** [unsigned int]: 32 bits. *)
Definition UINT_MODULUS : Z := 2 ^ 32.

Definition is_revcode_32 (c : Z) : Prop := 0 <= c < UINT_MODULUS.

(** Conversion to [unsigned int] (reduction modulo 2^32). *)
Definition to_uint (z : Z) : Z := z mod UINT_MODULUS.

(** Conversion to [int] (two's complement, as every supported
    compiler implements it). *)
Definition to_int (z : Z) : Z :=
  let u := z mod UINT_MODULUS in
  if u <? 2 ^ 31 then u else u - UINT_MODULUS.

(** Conversion to [size_t]; at least 32 bits wide on every target, 64
    bits here.  Only non-negative values below 2^32 are ever
    converted, so the width does not influence any result. *)
Definition SIZE_MODULUS : Z := 2 ^ 64.
Definition to_size_t (z : Z) : Z := z mod SIZE_MODULUS.

(** [a[i]] for an array whose defined elements are [a]: [None] is a
    read outside the array. *)
Definition array_get {T : Type} (a : list T) (i : Z) : option T :=
  if i <? 0 then None else nth_error a (Z.to_nat i).

(** [ARRAY_CNT(a)]: [sizeof(a) / sizeof(a[0])]. *)
Definition ARRAY_CNT {T : Type} (a : list T) : Z := Z.of_nat (List.length a).

End CInt.
Import CInt.

(** ** Field constants (the [#define]s) *)

Definition SONY_UK    : Z := Z.shiftl 0 16.
Definition EGOMAN     : Z := Z.shiftl 1 16.
Definition EMBEST     : Z := Z.shiftl 2 16.
Definition SONY_JAPAN : Z := Z.shiftl 3 16.
Definition STADIUM    : Z := Z.shiftl 5 16.
(* Special index because not used in new style. *)
Definition QISDA      : Z := Z.shiftl 0xF 16.

Definition MEM_256M : Z := Z.shiftl 0 20.
Definition MEM_512M : Z := Z.shiftl 1 20.
Definition MEM_1G   : Z := Z.shiftl 2 20.
Definition MEM_2G   : Z := Z.shiftl 3 20.
Definition MEM_4G   : Z := Z.shiftl 4 20.
Definition MEM_8G   : Z := Z.shiftl 5 20.

Definition MODEL_A     : Z := Z.shiftl 0 4.
Definition MODEL_B     : Z := Z.shiftl 1 4.
Definition MODEL_APLUS : Z := Z.shiftl 2 4.
Definition MODEL_BPLUS : Z := Z.shiftl 3 4.
Definition MODEL_CM1   : Z := Z.shiftl 6 4.

Definition REV_1_0 : Z := Z.shiftl 0 0.
Definition REV_1_1 : Z := Z.shiftl 0 0.
Definition REV_1_2 : Z := Z.shiftl 0 0.
Definition REV_1_3 : Z := Z.shiftl 0 0.
Definition REV_1_4 : Z := Z.shiftl 0 0.
Definition REV_1_5 : Z := Z.shiftl 0 0.
(* Special case highest unused index *)
Definition REV_2_0 : Z := Z.shiftl 0xF 0.

Definition OLD_REV_NOT_VALID : Z := 0xFFFFFFFF.

Definition EXIT_SUCCESS : Z := 0.
Definition EXIT_FAILURE : Z := 1.

(** ** Lookup tables and their fallback policy *)

(** [invalid_index_str] is a pointer that may be [NULL]: an [option]. *)
Definition lut_to_str_with_invalid (lut : list string) (lut_count : Z)
    (index : Z) (invalid_index : Z) (invalid_index_str : option string)
    : option string :=
  if index <? lut_count then array_get lut index
  else
    match invalid_index_str with
    | Some s => if index =? invalid_index then Some s else Some "???"
    | None => Some "???"
    end.

Definition lut_to_str (lut : list string) (lut_count : Z) (index : Z)
    : option string :=
  lut_to_str_with_invalid lut lut_count index 0 None.

(** ** Bit-field accessors *)

Definition overvoltage_allowed (revision_code : Z) : bool :=
  Z.land (Z.shiftr revision_code 31) 0x1 =? 0.

Definition overvoltage_allowed_str (revision_code : Z) : string :=
  if overvoltage_allowed revision_code then "Allowed" else "Disallowed".

Definition otp_programming_allowed (revision_code : Z) : bool :=
  Z.land (Z.shiftr revision_code 30) 0x1 =? 0.

Definition otp_reading_allowed (revision_code : Z) : bool :=
  Z.land (Z.shiftr revision_code 29) 0x1 =? 0.

Definition otp_programming_allowed_str (revision_code : Z) : string :=
  if otp_programming_allowed revision_code then "Allowed" else "Disallowed".

Definition otp_reading_allowed_str (revision_code : Z) : string :=
  if otp_reading_allowed revision_code then "Allowed" else "Disallowed".

Definition warranty_intact (revision_code : Z) : bool :=
  Z.land (Z.shiftr revision_code 25) 0x1 =? 0.

Definition warranty_intact_str (revision_code : Z) : string :=
  if warranty_intact revision_code then "Intact" else "Voided".

Definition revision_new_style (revision_code : Z) : bool :=
  Z.land (Z.shiftr revision_code 23) 0x1 =? 1.

Definition type_index (revision_code : Z) : Z :=
  Z.land (Z.shiftr revision_code 4) 0xFF.

Definition type_map : list string :=
  [ "A"; "B"; "A+"; "B+"; "2B"; "Alpha"; "CM1"; "0x07"; "3B"; "Zero";
    "CM3"; "0x0B"; "Zero W"; "3B+"; "3A+"; "Internal use only"; "CM3+";
    "4B"; "Zero 2 W"; "400"; "CM4"; "CM4S" ].

Definition type_str (revision_code : Z) : option string :=
  lut_to_str type_map (to_int (ARRAY_CNT type_map))
             (to_int (type_index revision_code)).

Definition physical_memory_index (revision_code : Z) : Z :=
  Z.land (Z.shiftr revision_code 20) 0x7.

Definition mem_mbytes_map : list Z :=
  [ 256; 512; 1 * 1024; 2 * 1024; 4 * 1024; 8 * 1024 ].

(** Physical amount of memory in MB.  The comparison is made in
    [size_t], the type of [ARRAY_CNT]. *)
Definition physical_memory_mbytes (revision_code : Z) : option Z :=
  let index := to_int (physical_memory_index revision_code) in
  if to_size_t index >? ARRAY_CNT mem_mbytes_map then Some 0
  else array_get mem_mbytes_map index.

Definition processor_index (revision_code : Z) : Z :=
  Z.land (Z.shiftr revision_code 12) 0xF.

Definition processor_map : list string :=
  [ "BCM2835"; "BCM2836"; "BCM2837"; "BCM2711" ].

Definition processor_str (revision_code : Z) : option string :=
  lut_to_str processor_map (to_int (ARRAY_CNT processor_map))
             (to_int (processor_index revision_code)).

Definition manufacturer_index (revision_code : Z) : Z :=
  Z.land (Z.shiftr revision_code 16) 0xF.

Definition manufacturer_map : list string :=
  [ "Sony UK"; "Egoman"; "Embest"; "Sony Japan"; "Embest"; "Stadium" ].

Definition manufacturer_str (revision_code : Z) : option string :=
  let index := to_int (manufacturer_index revision_code) in
  lut_to_str_with_invalid manufacturer_map
                          (to_int (ARRAY_CNT manufacturer_map))
                          index
                          (Z.shiftr QISDA 16)
                          (Some "Qisda").

Definition revision_index (revision_code : Z) : Z :=
  Z.land (Z.shiftr revision_code 0) 0xF.

Definition revision_map : list string :=
  [ "1.0"; "1.1"; "1.2"; "1.3"; "1.4"; "1.5" ].

Definition revision_str (revision_code : Z) : option string :=
  let index := to_int (revision_index revision_code) in
  lut_to_str_with_invalid revision_map
                          (to_int (ARRAY_CNT revision_map))
                          index
                          (Z.shiftr REV_2_0 0)
                          (Some "2.0").

(** ** The C library functions the program relies on *)

Module Libc.

Definition nl : string := String "010"%char EmptyString.
Definition dquote : string := String "034"%char EmptyString.

(** The character of one digit, upper case above nine (as [%X]). *)
Definition digit_char (d : Z) : ascii :=
  if d <? 10 then ascii_of_nat (48 + Z.to_nat d)
  else ascii_of_nat (55 + Z.to_nat d).

(** Digits of a non-negative number, most significant first, without
    padding.  [fuel] bounds the number of digits produced. *)
Fixpoint utoa (base : Z) (fuel : nat) (n : Z) : string :=
  match fuel with
  | O => EmptyString
  | S f =>
      (if n <? base then EmptyString else utoa base f (n / base))
        ++ String (digit_char (n mod base)) EmptyString
  end.

(** Enough for every 32-bit value in any base. *)
Definition DIGITS : nat := 32.

(** [%d] applied to an argument read as an [int]. *)
Definition fmt_d (v : Z) : string :=
  let i := to_int v in
  if i <? 0 then "-" ++ utoa 10 DIGITS (- i) else utoa 10 DIGITS i.

(** [%0X] applied to an [unsigned int]: no width, so no padding. *)
Definition fmt_X (v : Z) : string := utoa 16 DIGITS (to_uint v).

Fixpoint spaces (n : nat) : string :=
  match n with
  | O => EmptyString
  | S k => String " "%char (spaces k)
  end.

(** [%-16s] and the like: left-justified in a field of [width]. *)
Definition fmt_s_left (width : nat) (s : string) : string :=
  s ++ spaces (width - String.length s).

(** [sprintf] into a buffer of [cap] bytes: the text and its
    terminator have to fit. *)
Definition sprintf (cap : Z) (text : string) : option string :=
  if Z.of_nat (String.length text) + 1 <=? cap then Some text else None.

(** The C string found in [dst] after [strncpy(dst, src, n)] followed
    by a terminator at [dst[n]]. *)
Definition strncpy (src : string) (n : Z) : string :=
  substring 0 (Z.to_nat n) src.

End Libc.
Import Libc.

(** ** Memory size as text *)

(** The local buffer [result_str] of [physical_memory_str], seven bytes
    initialised to zero, after the formatting step. *)
Definition result_str (mega_bytes : Z) : option string :=
  if mega_bytes >=? 1024 then
    let giga_bytes := Z.shiftr mega_bytes 10 in
    if giga_bytes <=? 9999 then sprintf (4 + 2 + 1) (fmt_d giga_bytes ++ "GB")
    else Some EmptyString
  else
    sprintf (4 + 2 + 1) (fmt_d mega_bytes ++ "MB").

(** [result] points to a buffer of [result_size] bytes.  With
    [result_size = 0] the length [result_size - 1] wraps around in
    [size_t] and [strncpy] writes past the buffer. *)
Definition physical_memory_str (revision_code : Z) (result_size : Z)
    : option string :=
  match physical_memory_mbytes revision_code with
  | None => None
  | Some mega_bytes =>
      match result_str mega_bytes with
      | None => None
      | Some text =>
          let n := to_size_t (result_size - 1) in
          if n <? result_size then Some (strncpy text n) else None
      end
  end.

(** ** Output and termination *)

Record world : Type := mkWorld { stdout : string; stderr : string }.

Inductive outcome (A : Type) : Type :=
| Returned (a : A)
| Exited (status : Z)
| Undefined.
Arguments Returned {A} a.
Arguments Exited {A} status.
Arguments Undefined {A}.

Definition prog (A : Type) : Type := world -> outcome A * world.

Definition ret {A : Type} (a : A) : prog A := fun w => (Returned a, w).

Definition bind {A B : Type} (m : prog A) (k : A -> prog B) : prog B :=
  fun w =>
    match m w with
    | (Returned a, w') => k a w'
    | (Exited s, w') => (Exited s, w')
    | (Undefined, w') => (Undefined, w')
    end.

Notation "x <- m ;; k" := (bind m (fun x => k))
  (at level 61, m at next level, right associativity).
Notation "m ;; k" := (bind m (fun _ => k))
  (at level 61, right associativity).

Definition printf (text : string) : prog unit :=
  fun w => (Returned tt, mkWorld (stdout w ++ text) (stderr w)).

Definition fprintf_stderr (text : string) : prog unit :=
  fun w => (Returned tt, mkWorld (stdout w) (stderr w ++ text)).

Definition exit {A : Type} (status : Z) : prog A :=
  fun w => (Exited status, w).

(** A value whose computation may have read outside an array. *)
Definition defined {A : Type} (o : option A) : prog A :=
  fun w => match o with Some a => (Returned a, w) | None => (Undefined, w) end.

Definition when (b : bool) (m : prog unit) : prog unit :=
  if b then m else ret tt.

Definition initial_world : world := mkWorld EmptyString EmptyString.

(** ** Legacy codes *)

(** [static int old_revision_map[]]: the initialisers converted to [int]. *)
Definition old_revision_map : list Z :=
  map to_int
    [ (* 0000 *) OLD_REV_NOT_VALID;
      (* 0001 *) OLD_REV_NOT_VALID;
      (* 0002 *) Z.lor (Z.lor (Z.lor MODEL_B REV_1_0) MEM_256M) EGOMAN;
      (* 0003 *) Z.lor (Z.lor (Z.lor MODEL_B REV_1_0) MEM_256M) EGOMAN;
      (* 0004 *) Z.lor (Z.lor (Z.lor MODEL_B REV_2_0) MEM_256M) SONY_UK;
      (* 0005 *) Z.lor (Z.lor (Z.lor MODEL_B REV_2_0) MEM_256M) QISDA;
      (* 0006 *) Z.lor (Z.lor (Z.lor MODEL_B REV_2_0) MEM_256M) EGOMAN;
      (* 0007 *) Z.lor (Z.lor (Z.lor MODEL_A REV_2_0) MEM_256M) EGOMAN;
      (* 0008 *) Z.lor (Z.lor (Z.lor MODEL_A REV_2_0) MEM_256M) SONY_UK;
      (* 0009 *) Z.lor (Z.lor (Z.lor MODEL_A REV_2_0) MEM_256M) QISDA;
      (* 000a *) OLD_REV_NOT_VALID;
      (* 000b *) OLD_REV_NOT_VALID;
      (* 000c *) OLD_REV_NOT_VALID;
      (* 000d *) Z.lor (Z.lor (Z.lor MODEL_B REV_2_0) MEM_512M) EGOMAN;
      (* 000e *) Z.lor (Z.lor (Z.lor MODEL_B REV_2_0) MEM_512M) SONY_UK;
      (* 000f *) Z.lor (Z.lor (Z.lor MODEL_B REV_2_0) MEM_512M) EGOMAN;
      (* 0010 *) Z.lor (Z.lor (Z.lor MODEL_BPLUS REV_1_2) MEM_512M) SONY_UK;
      (* 0011 *) Z.lor (Z.lor (Z.lor MODEL_CM1 REV_1_0) MEM_512M) SONY_UK;
      (* 0012 *) Z.lor (Z.lor (Z.lor MODEL_APLUS REV_1_1) MEM_256M) SONY_UK;
      (* 0013 *) Z.lor (Z.lor (Z.lor MODEL_BPLUS REV_1_2) MEM_512M) EMBEST;
      (* 0014 *) Z.lor (Z.lor (Z.lor MODEL_CM1 REV_1_0) MEM_512M) EMBEST;
      (* 0015 *) Z.lor (Z.lor (Z.lor MODEL_APLUS REV_1_1) MEM_256M) EMBEST ].

(** The conditional expression has type [unsigned int]: the table entry
    is converted back from [int]. *)
Definition map_old_to_new (revision_code : Z) : prog Z :=
  let new_revision_code := revision_code in
  if negb (revision_new_style new_revision_code) then
    new_revision_code <-
      (if to_size_t new_revision_code <? ARRAY_CNT old_revision_map
       then defined (option_map to_uint
                       (array_get old_revision_map new_revision_code))
       else ret OLD_REV_NOT_VALID) ;;
    if new_revision_code =? OLD_REV_NOT_VALID then
      fprintf_stderr ("Invalid old style revision!" ++ nl) ;;
      exit EXIT_FAILURE
    else ret new_revision_code
  else ret new_revision_code.

(** ** The two renderers *)

(** ["    %-16s: %s\n"] *)
Definition field_format_text (label value : string) : string :=
  "    " ++ fmt_s_left 16 label ++ ": " ++ value ++ nl.

Definition print_revision_text (revision_code : Z) : prog Z :=
  printf ("Revision code 0x" ++ fmt_X revision_code ++ " interpreted:" ++ nl) ;;
  let field_format := field_format_text in
  code <- map_old_to_new revision_code ;;
  let new_style := revision_new_style code in
  printf (field_format "Style" (if new_style then "New" else "Old")) ;;
  when new_style
    (printf (field_format "Overvoltage" (overvoltage_allowed_str code)) ;;
     printf (field_format "OTP Programming"
                          (otp_programming_allowed_str code)) ;;
     printf (field_format "OTP Reading" (otp_reading_allowed_str code)) ;;
     printf (field_format "Warranty" (warranty_intact_str code))) ;;
  s <- defined (type_str code) ;;
  printf (field_format "Type/Model" s) ;;
  s <- defined (revision_str code) ;;
  printf (field_format "Revision" s) ;;
  when new_style
    (s <- defined (processor_str code) ;;
     printf (field_format "Processor/SOC" s)) ;;
  s <- defined (physical_memory_str code 8) ;;
  printf (field_format "Memory" s) ;;
  s <- defined (manufacturer_str code) ;;
  printf (field_format "Manufacturer" s) ;;
  ret EXIT_SUCCESS.

Definition bool_json (value : bool) : string :=
  if value then "true" else "false".

(** ["    %s: %s%s\n"] *)
Definition field_format_json (key value sep : string) : string :=
  "    " ++ key ++ ": " ++ value ++ sep ++ nl.

(** The same with the value between double quotes. *)
Definition str_field_format_json (key value sep : string) : string :=
  "    " ++ key ++ ": " ++ dquote ++ value ++ dquote ++ sep ++ nl.

Definition print_revision_json (revision_code : Z) : prog Z :=
  let field_format := field_format_json in
  let str_field_format := str_field_format_json in
  code <- map_old_to_new revision_code ;;
  let new_style := revision_new_style code in
  printf ("{" ++ nl) ;;
  let hex_revision := "0x" ++ fmt_X revision_code in
  printf (str_field_format "revision_code" hex_revision ",") ;;
  printf (str_field_format "style" (if new_style then "new" else "old") ",") ;;
  when new_style
    (printf (field_format "overvoltage_allowed"
                          (bool_json (overvoltage_allowed code)) ",") ;;
     printf (field_format "otp_programming_allowed"
                          (bool_json (otp_programming_allowed code)) ",") ;;
     printf (field_format "otp_reading_allowed"
                          (bool_json (otp_reading_allowed code)) ",") ;;
     printf (field_format "warranty_intact"
                          (bool_json (warranty_intact code)) ",")) ;;
  s <- defined (type_str code) ;;
  printf (str_field_format "type" s ",") ;;
  s <- defined (revision_str code) ;;
  printf (str_field_format "revision" s ",") ;;
  when new_style
    (s <- defined (processor_str code) ;;
     printf (str_field_format "processor" s ",")) ;;
  s <- defined (physical_memory_str code 8) ;;
  printf (str_field_format "memory" s ",") ;;
  s <- defined (manufacturer_str code) ;;
  printf (str_field_format "manufacturer" s EmptyString) ;;
  printf ("}" ++ nl) ;;
  ret EXIT_SUCCESS.

(** ** Reading a revision code from text *)

Module Strtoul.

Definition ERANGE : Z := 34.

(** [isspace] in the C locale: space, and tab to carriage return. *)
Definition isspace (ch : ascii) : bool :=
  let n := Z.of_nat (nat_of_ascii ch) in
  (n =? 32) || ((9 <=? n) && (n <=? 13)).

(** The value of a character as a digit of base 16, in either case. *)
Definition hex_digit (ch : ascii) : option Z :=
  let n := Z.of_nat (nat_of_ascii ch) in
  if (48 <=? n) && (n <=? 57) then Some (n - 48)
  else if (65 <=? n) && (n <=? 70) then Some (n - 55)
  else if (97 <=? n) && (n <=? 102) then Some (n - 87)
  else None.

Definition is_hex (ch : ascii) : bool :=
  match hex_digit ch with Some _ => true | None => false end.

Fixpoint skip_space (s : string) : string :=
  match s with
  | String ch rest => if isspace ch then skip_space rest else s
  | EmptyString => s
  end.

(** The longest run of digits at the head of [s]: its value on top of
    [acc], the number of digits on top of [count], and what follows. *)
Fixpoint scan_digits (s : string) (acc : Z) (count : nat)
    : Z * nat * string :=
  match s with
  | String ch rest =>
      match hex_digit ch with
      | Some d => scan_digits rest (16 * acc + d) (S count)
      | None => (acc, count, s)
      end
  | EmptyString => (acc, count, s)
  end.

(** ["0x"] or ["0X"] counts as a prefix only in front of a digit. *)
Definition has_hex_prefix (s : string) : bool :=
  match s with
  | String c0 (String c1 (String c2 _)) =>
      Ascii.eqb c0 "0" && (Ascii.eqb c1 "x" || Ascii.eqb c1 "X") && is_hex c2
  | _ => false
  end.

Definition ULONG_MAX (long_bits : Z) : Z := 2 ^ long_bits - 1.

(** What [strtoul] hands back: the value, the offset of [endptr] from
    the start of the text, and [errno] (zero before the call). *)
Record conversion : Type :=
  mkConversion { value : Z; endptr : nat; errno : Z }.

(** [strtoul(nptr, &endptr, 16)] for an [unsigned long] of [long_bits]
    bits: white space, an optional sign, an optional prefix, digits.
    Without a digit nothing is converted and [endptr] is [nptr]; a
    magnitude that does not fit gives [ULONG_MAX] and [ERANGE]; a minus
    sign negates in [unsigned long]. *)
Definition strtoul (long_bits : Z) (nptr : string) : conversion :=
  let s1 := skip_space nptr in
  let signed :=
    match s1 with
    | String ch rest =>
        if Ascii.eqb ch "-" then (true, rest)
        else if Ascii.eqb ch "+" then (false, rest)
        else (false, s1)
    | EmptyString => (false, s1)
    end in
  let negative := fst signed in
  let s2 := snd signed in
  let s3 := if has_hex_prefix s2 then substring 2 (String.length s2) s2
            else s2 in
  let scanned := scan_digits s3 0 0 in
  let magnitude := fst (fst scanned) in
  let rest := snd scanned in
  match snd (fst scanned) with
  | O => mkConversion 0 0 0
  | S _ =>
      let consumed := (String.length nptr - String.length rest)%nat in
      if magnitude >? ULONG_MAX long_bits
      then mkConversion (ULONG_MAX long_bits) consumed ERANGE
      else mkConversion
             (if negative then (- magnitude) mod 2 ^ long_bits
              else magnitude)
             consumed 0
  end.

End Strtoul.
Import Strtoul.

(** Lower case of the digits above nine, as [%lx] prints them. *)
Definition lower_hex (ch : ascii) : ascii :=
  let n := nat_of_ascii ch in
  if ((65 <=? n) && (n <=? 70))%nat then ascii_of_nat (n + 32) else ch.

Fixpoint string_map (f : ascii -> ascii) (s : string) : string :=
  match s with
  | EmptyString => EmptyString
  | String ch rest => String (f ch) (string_map f rest)
  end.

(** [%lx] applied to an [unsigned long] of [long_bits] bits. *)
Definition fmt_lx (long_bits : Z) (v : Z) : string :=
  string_map lower_hex (utoa 16 DIGITS (v mod 2 ^ long_bits)).

(** [long_bits] is the width of [long]: 32 on the 32-bit Raspberry Pi
    OS, 64 on the other systems the program is built on.  [int] has 32
    bits. *)
Definition str_to_revision (long_bits : Z) (input : string) : prog Z :=
  let conv := strtoul long_bits input in
  let value := value conv in
  if errno conv =? ERANGE then
    fprintf_stderr ("Revision code " ++ dquote ++ input ++ dquote ++
                    " too large or too small" ++ nl) ;;
    exit EXIT_FAILURE
  else if negb (errno conv =? 0) || (endptr conv =? 0)%nat then
    fprintf_stderr ("Could not parse revision code " ++ dquote ++ input ++
                    dquote ++ nl) ;;
    exit EXIT_FAILURE
  else if (long_bits >? 32) && (value >? 0xFFFFFFFF) then
    fprintf_stderr ("Revision code " ++ dquote ++ input ++ dquote ++
                    " (" ++ fmt_lx long_bits value ++
                    ") larger than 32 bits" ++ nl) ;;
    exit EXIT_FAILURE
  else ret (to_uint value).

(** ** Processing the arguments *)

(** The loop of [process_rev_codes] from some index on: [codes] are the
    arguments still to process, [exit_status] the status so far. *)
Fixpoint process_rev_codes_from (long_bits : Z) (codes : list string)
    (print_json : bool) (exit_status : Z) : prog Z :=
  match codes with
  | [] => ret exit_status
  | code :: remaining =>
      if exit_status =? 0 then
        let rev_code_str := strncpy code (32 - 1) in
        revision_code <- str_to_revision long_bits rev_code_str ;;
        exit_status <-
          (if print_json then print_revision_json revision_code
           else print_revision_text revision_code) ;;
        process_rev_codes_from long_bits remaining print_json exit_status
      else ret exit_status
  end.

Definition process_rev_codes (long_bits : Z) (codes : list string)
    (print_json : bool) : prog Z :=
  process_rev_codes_from long_bits codes print_json EXIT_SUCCESS.

(** ** Reading the code of the host *)

Module Cpuinfo.

(** The C string held by an array of characters: up to the first NUL. *)
Fixpoint c_str (s : string) : string :=
  match s with
  | EmptyString => EmptyString
  | String ch rest =>
      if Ascii.eqb ch zero then EmptyString else String ch (c_str rest)
  end.

(** [char line[256]] *)
Definition LINE_SIZE : nat := 256.

(** What successive calls of [fgets(line, size, fp)] store, up to the
    end of the file: each line ends after a newline or when [size - 1]
    characters are read.  [room] characters still fit in the line being
    read and [full] is [size - 1]. *)
Fixpoint fgets_lines (room full : nat) (file : string) : list string :=
  match file with
  | EmptyString => []
  | String ch rest =>
      if Ascii.eqb ch "010" || (room <=? 1)%nat
      then String ch EmptyString :: fgets_lines full full rest
      else
        match fgets_lines (room - 1) full rest with
        | [] => [String ch EmptyString]
        | line :: lines => String ch line :: lines
        end
  end.

(** Ordinary characters of a [scanf] format against the input. *)
Fixpoint match_literal (literal input : string) : option string :=
  match literal with
  | EmptyString => Some input
  | String l literal' =>
      match input with
      | String ch input' =>
          if Ascii.eqb ch l then match_literal literal' input' else None
      | EmptyString => None
      end
  end.

(** [%s] with a field width: the characters up to the next white
    space, at most [width] of them. *)
Fixpoint scan_word (width : nat) (s : string) : string :=
  match width, s with
  | S k, String ch rest =>
      if isspace ch then EmptyString else String ch (scan_word k rest)
  | _, _ => EmptyString
  end.

(** [sscanf(line, "Revision : %<width>s", buffer)]: the word stored in
    [buffer] when the call returns 1, [None] when it returns anything
    else and leaves [buffer] as it is.  White space in the format
    matches any amount of white space, also none. *)
Definition sscanf_revision (width : nat) (line : string) : option string :=
  match match_literal "Revision" line with
  | None => None
  | Some after_name =>
      match match_literal ":" (skip_space after_name) with
      | None => None
      | Some after_colon =>
          match scan_word width (skip_space after_colon) with
          | EmptyString => None
          | word => Some word
          end
      end
  end.

(** The loop over the lines: the word of the first line that matches. *)
Fixpoint first_revision (width : nat) (lines : list string)
    : option string :=
  match lines with
  | [] => None
  | line :: later =>
      match sscanf_revision width (c_str line) with
      | Some word => Some word
      | None => first_revision width later
      end
  end.

End Cpuinfo.
Import Cpuinfo.

(** [cpuinfo] is the content of /proc/cpuinfo, [None] when the file
    cannot be opened; [buffer] is what the caller's buffer holds before
    the call.  The result is the status and the buffer afterwards.  A
    field width that is not positive makes the format invalid. *)
Definition read_proc_cpuinfo (cpuinfo : option string) (buffer : string)
    (buffer_size : Z) : prog (Z * string) :=
  if buffer_size <=? 0 then ret (EXIT_FAILURE, buffer)
  else
    match cpuinfo with
    | None =>
        fprintf_stderr ("Could not open /proc/cpuinfo" ++ nl) ;;
        ret (EXIT_FAILURE, buffer)
    | Some file =>
        let width := to_int (buffer_size - 1) in
        if width <=? 0 then (fun w => (Undefined, w))
        else
          let buffer := EmptyString in
          match first_revision (Z.to_nat width)
                  (fgets_lines (LINE_SIZE - 1) (LINE_SIZE - 1) file) with
          | Some word => ret (EXIT_SUCCESS, word)
          | None => ret (EXIT_SUCCESS, buffer)
          end
    end.

Definition process_proc_cpuinfo (long_bits : Z) (cpuinfo : option string)
    (print_json : bool) : prog Z :=
  let rev_code_str := EmptyString in
  r <- read_proc_cpuinfo cpuinfo rev_code_str 32 ;;
  if fst r =? EXIT_FAILURE then ret EXIT_FAILURE
  else process_rev_codes long_bits [snd r] print_json.

(** [argv] holds the [argc] arguments, the program name first. *)
Definition main (long_bits : Z) (cpuinfo : option string)
    (argv : list string) : prog Z :=
  let argc := Z.of_nat (List.length argv) in
  let flagged :=
    if argc >? 1 then
      match nth_error argv 1 with
      | Some arg => String.eqb arg "-j" || String.eqb arg "--json"
      | None => false
      end
    else false in
  let print_json := flagged in
  let first_code_index := if flagged then 2 else 1 in
  if first_code_index >=? argc then
    process_proc_cpuinfo long_bits cpuinfo print_json
  else
    process_rev_codes long_bits (skipn (Z.to_nat first_code_index) argv)
                      print_json.

(** ** Vocabulary of the statements *)

(** What the caller observes when [map_old_to_new] rejects a code: the
    message on the error stream, then [exit(EXIT_FAILURE)]. *)
Definition UnknownLegacyCode {A : Type} (w : world) : outcome A * world :=
  (Exited EXIT_FAILURE,
   mkWorld (stdout w) (stderr w ++ "Invalid old style revision!" ++ nl)).

(** The entry of the legacy table is the not-valid sentinel. *)
Definition not_valid_entry (c : Z) : Prop :=
  array_get old_revision_map c = Some (to_int OLD_REV_NOT_VALID).

(** Number of entries of a legacy table that are not the sentinel. *)
Definition populated_slots (table : list Z) : nat :=
  List.length (filter (fun e => negb (e =? to_int OLD_REV_NOT_VALID)) table).

(** Reading a string of decimal digits back as a number. *)
Definition digit_value (ch : ascii) : Z := Z.of_nat (nat_of_ascii ch) - 48.

Fixpoint decimal_value (s : string) (acc : Z) : Z :=
  match s with
  | EmptyString => acc
  | String ch rest => decimal_value rest (10 * acc + digit_value ch)
  end.

Definition is_digit (ch : ascii) : bool :=
  let n := Z.of_nat (nat_of_ascii ch) in (48 <=? n) && (n <=? 57).

Fixpoint all_digits (s : string) : bool :=
  match s with
  | EmptyString => true
  | String ch rest => is_digit ch && all_digits rest
  end.

(** [s] is the decimal numeral of [n] without padding: digits only, at
    least one, of value [n], and a leading 0 only for the numeral 0. *)
Definition canonical_decimal (s : string) (n : Z) : Prop :=
  s <> EmptyString /\
  all_digits s = true /\
  decimal_value s 0 = n /\
  (forall rest, s = String "0"%char rest -> rest = EmptyString).

(** Reading a string of upper-case hexadecimal digits back. *)
Definition hex_digit_value (ch : ascii) : Z :=
  let n := Z.of_nat (nat_of_ascii ch) in
  if n <? 65 then n - 48 else n - 55.

Fixpoint hex_value (s : string) (acc : Z) : Z :=
  match s with
  | EmptyString => acc
  | String ch rest => hex_value rest (16 * acc + hex_digit_value ch)
  end.

(** The streams of [w] followed by what [d] holds. *)
Definition append_world (w d : world) : world :=
  mkWorld (stdout w ++ stdout d) (stderr w ++ stderr d).

(** A computation that only appends to the two streams, and whose
    outcome and output do not depend on what was written before. *)
Definition appends_output {A : Type} (m : prog A) : Prop :=
  forall w, m w = (fst (m initial_world),
                   append_world w (snd (m initial_world))).

(** Every character of [s] is a digit of base 16. *)
Fixpoint all_hex (s : string) : bool :=
  match s with
  | EmptyString => true
  | String ch rest => is_hex ch && all_hex rest
  end.

(** Text after which a number ends: nothing, or a character that is
    neither a digit of base 16 nor the letter of the prefix. *)
Definition stops_number (rest : string) : bool :=
  match rest with
  | EmptyString => true
  | String ch _ =>
      negb (is_hex ch) && negb (Ascii.eqb ch "x") && negb (Ascii.eqb ch "X")
  end.

(** Text in which no number starts: nothing, or a first character that
    is neither white space, a sign nor a digit of base 16. *)
Definition starts_no_number (input : string) : bool :=
  match input with
  | EmptyString => true
  | String ch _ =>
      negb (isspace ch) && negb (Ascii.eqb ch "-") &&
      negb (Ascii.eqb ch "+") && negb (is_hex ch)
  end.

(** What the caller observes when [str_to_revision] finds no number. *)
Definition CouldNotParse {A : Type} (input : string) (w : world)
    : outcome A * world :=
  (Exited EXIT_FAILURE,
   mkWorld (stdout w)
           (stderr w ++ "Could not parse revision code " ++ dquote ++
            input ++ dquote ++ nl)).

(** Whenever [m] returns, the value returned satisfies [P]. *)
Definition returns_only {A : Type} (P : A -> Prop) (m : prog A) : Prop :=
  forall w a w', m w = (Returned a, w') -> P a.

(** Lines of a text file, for the statements about /proc/cpuinfo. *)
Definition tab : string := String "009"%char EmptyString.

Fixpoint no_newline (s : string) : bool :=
  match s with
  | EmptyString => true
  | String ch rest => negb (Ascii.eqb ch "010") && no_newline rest
  end.

Definition starts_with_R (s : string) : bool :=
  match s with
  | String ch _ => Ascii.eqb ch "R"
  | EmptyString => false
  end.

(** A line that fits the line buffer with its newline and does not
    begin with the letter R. *)
Definition other_line (l : string) : bool :=
  (String.length l <=? 254)%nat && no_newline l && negb (starts_with_R l).

(** The file made of the given lines, each ended by a newline. *)
Fixpoint text_of_lines (ls : list string) : string :=
  match ls with
  | [] => EmptyString
  | l :: later => l ++ nl ++ text_of_lines later
  end.

(** The renderer selected by the flag. *)
Definition render (print_json : bool) (c : Z) : prog Z :=
  if print_json then print_revision_json c else print_revision_text c.

(** The shape of the entries of [old_revision_map],
    [MODEL | REV | MEM | MANUFACTURER], each macro being a small number
    shifted to its field. *)
Definition legacy_entry (model rev mem manufacturer : Z) : Z :=
  Z.lor (Z.lor (Z.lor (Z.shiftl model 4) (Z.shiftl rev 0))
               (Z.shiftl mem 20))
        (Z.shiftl manufacturer 16).

(** * Properties *)

(** ** Integer conversions and bit fields *)

Section BitFields.

Lemma revcode_32_bounds (c : Z) :
  is_revcode_32 c <-> 0 <= c <= 0xFFFFFFFF.
Proof. unfold is_revcode_32, UINT_MODULUS. lia. Qed.

Lemma to_int_small (z : Z) : 0 <= z < 2 ^ 31 -> to_int z = z.
Proof.
  intros H. unfold to_int, UINT_MODULUS.
  rewrite Z.mod_small by lia.
  destruct (Z.ltb_spec z (2 ^ 31)); lia.
Qed.

Lemma to_uint_small (z : Z) : is_revcode_32 z -> to_uint z = z.
Proof. intros H. unfold to_uint. now apply Z.mod_small. Qed.

Lemma to_size_t_small (z : Z) : is_revcode_32 z -> to_size_t z = z.
Proof.
  unfold is_revcode_32, UINT_MODULUS, to_size_t, SIZE_MODULUS.
  intros H. apply Z.mod_small. lia.
Qed.

(** A field of [w] bits at offset [k] is the number made of the bits
    [k .. k + w - 1] of the code. *)
Lemma field_div_mod (c k w : Z) :
  0 <= k -> 0 <= w ->
  Z.land (Z.shiftr c k) (Z.ones w) = (c / 2 ^ k) mod 2 ^ w.
Proof.
  intros Hk Hw.
  rewrite Z.land_ones by assumption.
  now rewrite Z.shiftr_div_pow2 by assumption.
Qed.

Lemma field_range (c k w : Z) :
  0 <= k -> 0 <= w ->
  0 <= Z.land (Z.shiftr c k) (Z.ones w) < 2 ^ w.
Proof.
  intros Hk Hw. rewrite field_div_mod by assumption.
  apply Z.mod_pos_bound. now apply Z.pow_pos_nonneg.
Qed.

(** A field of one bit is that bit. *)
Lemma field_one_bit (c k : Z) :
  0 <= k -> Z.land (Z.shiftr c k) 0x1 = Z.b2z (Z.testbit c k).
Proof.
  intros Hk. change 0x1 with (Z.ones 1).
  rewrite Z.land_ones by lia.
  change (2 ^ 1) with 2.
  rewrite <- Z.bit0_mod, Z.shiftr_spec by lia.
  reflexivity.
Qed.

Lemma flag_clear (c k : Z) :
  0 <= k -> (Z.land (Z.shiftr c k) 0x1 =? 0) = negb (Z.testbit c k).
Proof.
  intros Hk. rewrite field_one_bit by assumption.
  now destruct (Z.testbit c k).
Qed.

Lemma revision_new_style_bit (c : Z) :
  revision_new_style c = Z.testbit c 23.
Proof.
  unfold revision_new_style. rewrite field_one_bit by lia.
  now destruct (Z.testbit c 23).
Qed.

Lemma type_index_range (c : Z) : 0 <= type_index c < 256.
Proof. exact (field_range c 4 8 ltac:(lia) ltac:(lia)). Qed.

Lemma physical_memory_index_range (c : Z) :
  0 <= physical_memory_index c < 8.
Proof. exact (field_range c 20 3 ltac:(lia) ltac:(lia)). Qed.

Lemma processor_index_range (c : Z) : 0 <= processor_index c < 16.
Proof. exact (field_range c 12 4 ltac:(lia) ltac:(lia)). Qed.

Lemma manufacturer_index_range (c : Z) : 0 <= manufacturer_index c < 16.
Proof. exact (field_range c 16 4 ltac:(lia) ltac:(lia)). Qed.

Lemma revision_index_range (c : Z) : 0 <= revision_index c < 16.
Proof. exact (field_range c 0 4 ltac:(lia) ltac:(lia)). Qed.

End BitFields.

(** ** Permission flags *)

(** C6. Each permission accessor is true exactly when its bit of the
    code is 0 (bit 31 overvoltage, bit 30 OTP programming, bit 29 OTP
    reading, bit 25 warranty), and the string accessor renders
    "Allowed" / "Intact" for a 0 bit and "Disallowed" / "Voided" for a
    1 bit. *)
Theorem permission_flags_inverted (c : Z) :
  (overvoltage_allowed c = negb (Z.testbit c 31) /\
   otp_programming_allowed c = negb (Z.testbit c 30) /\
   otp_reading_allowed c = negb (Z.testbit c 29) /\
   warranty_intact c = negb (Z.testbit c 25)) /\
  (overvoltage_allowed_str c =
     (if Z.testbit c 31 then "Disallowed" else "Allowed") /\
   otp_programming_allowed_str c =
     (if Z.testbit c 30 then "Disallowed" else "Allowed") /\
   otp_reading_allowed_str c =
     (if Z.testbit c 29 then "Disallowed" else "Allowed") /\
   warranty_intact_str c =
     (if Z.testbit c 25 then "Voided" else "Intact")).
Proof.
  unfold overvoltage_allowed_str, otp_programming_allowed_str,
    otp_reading_allowed_str, warranty_intact_str.
  unfold overvoltage_allowed, otp_programming_allowed,
    otp_reading_allowed, warranty_intact.
  rewrite !flag_clear by lia.
  repeat split;
    match goal with
    | |- context [Z.testbit c ?k] => now destruct (Z.testbit c k)
    end.
Qed.

(** ** The legacy mapper *)

Section LegacyMapper.

Lemma old_revision_map_count : ARRAY_CNT old_revision_map = 22.
Proof. reflexivity. Qed.

(** Every number below the table length, one case per slot. *)
Lemma below_22 (c : Z) :
  0 <= c < 22 ->
  c = 0 \/ c = 1 \/ c = 2 \/ c = 3 \/ c = 4 \/ c = 5 \/ c = 6 \/ c = 7 \/
  c = 8 \/ c = 9 \/ c = 10 \/ c = 11 \/ c = 12 \/ c = 13 \/ c = 14 \/
  c = 15 \/ c = 16 \/ c = 17 \/ c = 18 \/ c = 19 \/ c = 20 \/ c = 21.
Proof. lia. Qed.

Lemma map_old_to_new_new_style (c : Z) (w : world) :
  Z.testbit c 23 = true -> map_old_to_new c w = (Returned c, w).
Proof.
  intros Hbit. unfold map_old_to_new.
  now rewrite revision_new_style_bit, Hbit.
Qed.

Lemma map_old_to_new_out_of_range (c : Z) (w : world) :
  is_revcode_32 c -> Z.testbit c 23 = false ->
  ARRAY_CNT old_revision_map <= c ->
  map_old_to_new c w = UnknownLegacyCode w.
Proof.
  intros Hc Hbit Hlen. unfold map_old_to_new.
  rewrite revision_new_style_bit, Hbit, to_size_t_small by assumption.
  cbn [negb].
  destruct (Z.ltb_spec c (ARRAY_CNT old_revision_map)) as [Hlt | _];
    [lia | reflexivity].
Qed.

End LegacyMapper.

Ltac each_slot H :=
  destruct (below_22 _ H) as
    [-> | [-> | [-> | [-> | [-> | [-> | [-> | [-> | [-> | [-> | [-> |
    [-> | [-> | [-> | [-> | [-> | [-> | [-> | [-> | [-> | [-> | ->
    ]]]]]]]]]]]]]]]]]]]]].

(** C1. A code with bit 23 set is returned unchanged.  A code with bit
    23 clear is an index into the legacy table: the call ends in the
    fatal error exactly when the index is outside the table or the
    entry is the not-valid sentinel, and otherwise returns the entry. *)
Theorem map_old_to_new_contract (c : Z) (w : world) :
  is_revcode_32 c ->
  (Z.testbit c 23 = true -> map_old_to_new c w = (Returned c, w)) /\
  (Z.testbit c 23 = false ->
   (map_old_to_new c w = UnknownLegacyCode w <->
    ARRAY_CNT old_revision_map <= c \/ not_valid_entry c) /\
   (c < ARRAY_CNT old_revision_map -> ~ not_valid_entry c ->
    exists e, array_get old_revision_map c = Some e /\
              map_old_to_new c w = (Returned e, w))).
Proof.
  intros Hc. split; [apply map_old_to_new_new_style | intros Hbit].
  destruct (Z.le_gt_cases (ARRAY_CNT old_revision_map) c) as [Hge | Hlt].
  - split; [| lia].
    split; [now left | intros _].
    now apply map_old_to_new_out_of_range.
  - rewrite old_revision_map_count in *.
    assert (Hr : 0 <= c < 22) by (unfold is_revcode_32 in Hc; lia).
    clear Hc Hbit Hlt. unfold not_valid_entry, UnknownLegacyCode.
    each_slot Hr;
      (split;
       [ split;
         [ first [ intros _; right; reflexivity | discriminate ]
         | first [ intros _; reflexivity
                 | intros [Hle | Hentry]; [lia | discriminate Hentry] ] ]
       | intros _ Hvalid;
         first [ exfalso; apply Hvalid; reflexivity
               | eexists; split; reflexivity ] ]).
Qed.

(** At the new-style code 0xA02082 and at the legacy code 0x0002. *)
Lemma map_old_to_new_contract_witness :
  map_old_to_new 0xA02082 initial_world = (Returned 0xA02082, initial_world) /\
  (map_old_to_new 0x0002 initial_world = UnknownLegacyCode initial_world <->
   ARRAY_CNT old_revision_map <= 0x0002 \/ not_valid_entry 0x0002).
Proof.
  split.
  - apply (map_old_to_new_contract 0xA02082 initial_world).
    + unfold is_revcode_32, UINT_MODULUS. lia.
    + reflexivity.
  - apply (map_old_to_new_contract 0x0002 initial_world).
    + unfold is_revcode_32, UINT_MODULUS. lia.
    + reflexivity.
Defined.

(** ** Lookup tables *)

Section LookupTables.

Variable lut : list string.
Variables index invalid_index : Z.
Variable invalid_index_str : option string.

Let resolved : option string :=
  lut_to_str_with_invalid lut (ARRAY_CNT lut) index invalid_index
                          invalid_index_str.

Lemma array_get_in_bounds :
  0 <= index < ARRAY_CNT lut ->
  exists s, nth_error lut (Z.to_nat index) = Some s /\
            array_get lut index = Some s.
Proof.
  unfold ARRAY_CNT, array_get. intros [Hlo Hhi].
  destruct (Z.ltb_spec index 0) as [Hneg | _]; [lia |].
  destruct (nth_error lut (Z.to_nat index)) as [s |] eqn:Hnth.
  - now exists s.
  - apply nth_error_None in Hnth. lia.
Qed.

Lemma lut_below_count :
  index < ARRAY_CNT lut -> resolved = array_get lut index.
Proof.
  intros Hlt. unfold resolved, lut_to_str_with_invalid.
  destruct (Z.ltb_spec index (ARRAY_CNT lut)); [reflexivity | lia].
Qed.

Lemma lut_reserved_index (s : string) :
  ARRAY_CNT lut <= index ->
  invalid_index_str = Some s -> index = invalid_index ->
  resolved = Some s.
Proof.
  intros Hge -> <-. unfold resolved, lut_to_str_with_invalid.
  destruct (Z.ltb_spec index (ARRAY_CNT lut)); [lia |].
  now rewrite Z.eqb_refl.
Qed.

Lemma lut_unknown_index :
  ARRAY_CNT lut <= index ->
  invalid_index_str = None \/ index <> invalid_index ->
  resolved = Some "???".
Proof.
  intros Hge Hnone. unfold resolved, lut_to_str_with_invalid.
  destruct (Z.ltb_spec index (ARRAY_CNT lut)); [lia |].
  destruct invalid_index_str as [s |]; [| reflexivity].
  destruct Hnone as [Hnone | Hne]; [discriminate |].
  destruct (Z.eqb_spec index invalid_index); [contradiction | reflexivity].
Qed.

End LookupTables.

Section FieldTables.

Variable c : Z.

Lemma type_str_unfold :
  type_str c = lut_to_str_with_invalid type_map (ARRAY_CNT type_map)
                                       (type_index c) 0 None.
Proof.
  unfold type_str, lut_to_str.
  rewrite (to_int_small (type_index c))
    by (pose proof (type_index_range c); lia).
  reflexivity.
Qed.

Lemma processor_str_unfold :
  processor_str c =
  lut_to_str_with_invalid processor_map (ARRAY_CNT processor_map)
                          (processor_index c) 0 None.
Proof.
  unfold processor_str, lut_to_str.
  rewrite (to_int_small (processor_index c))
    by (pose proof (processor_index_range c); lia).
  reflexivity.
Qed.

Lemma manufacturer_str_unfold :
  manufacturer_str c =
  lut_to_str_with_invalid manufacturer_map (ARRAY_CNT manufacturer_map)
                          (manufacturer_index c) 15 (Some "Qisda").
Proof.
  unfold manufacturer_str.
  rewrite (to_int_small (manufacturer_index c))
    by (pose proof (manufacturer_index_range c); lia).
  reflexivity.
Qed.

Lemma revision_str_unfold :
  revision_str c =
  lut_to_str_with_invalid revision_map (ARRAY_CNT revision_map)
                          (revision_index c) 15 (Some "2.0").
Proof.
  unfold revision_str.
  rewrite (to_int_small (revision_index c))
    by (pose proof (revision_index_range c); lia).
  reflexivity.
Qed.

End FieldTables.

(** C2. With the count of the table passed as [lut_count]: an index
    below the count yields [table[index]] (an element of the table when
    the index is not negative); an index at or above the count yields
    the substitute string when one is declared and the index is the
    reserved one, and "???" otherwise.  For the manufacturer and the
    hardware revision the reserved index 15 yields "Qisda" and "2.0";
    for each of the four field tables an index at or above the table
    length other than the reserved one yields "???". *)
Theorem lut_three_tier_policy :
  (forall (lut : list string) (index invalid_index : Z)
          (invalid_index_str : option string),
     let resolved :=
       lut_to_str_with_invalid lut (ARRAY_CNT lut) index invalid_index
                               invalid_index_str in
     (index < ARRAY_CNT lut -> resolved = array_get lut index) /\
     (0 <= index < ARRAY_CNT lut ->
      exists s, nth_error lut (Z.to_nat index) = Some s /\
                resolved = Some s) /\
     (ARRAY_CNT lut <= index ->
      forall s, invalid_index_str = Some s -> index = invalid_index ->
                resolved = Some s) /\
     (ARRAY_CNT lut <= index ->
      invalid_index_str = None \/ index <> invalid_index ->
      resolved = Some "???")) /\
  (forall c, manufacturer_index c = 15 -> manufacturer_str c = Some "Qisda") /\
  (forall c, revision_index c = 15 -> revision_str c = Some "2.0") /\
  (forall c, ARRAY_CNT manufacturer_map <= manufacturer_index c ->
             manufacturer_index c <> 15 ->
             manufacturer_str c = Some "???") /\
  (forall c, ARRAY_CNT revision_map <= revision_index c ->
             revision_index c <> 15 ->
             revision_str c = Some "???") /\
  (forall c, ARRAY_CNT type_map <= type_index c ->
             type_str c = Some "???") /\
  (forall c, ARRAY_CNT processor_map <= processor_index c ->
             processor_str c = Some "???").
Proof.
  split; [| repeat split].
  - intros lut index invalid_index invalid_index_str resolved.
    split; [apply lut_below_count |].
    split; [| split].
    + intros Hin.
      destruct (array_get_in_bounds lut index Hin) as [s [Hnth Hget]].
      exists s. split; [assumption |].
      unfold resolved. rewrite lut_below_count by lia. assumption.
    + intros Hge s. now apply lut_reserved_index.
    + apply lut_unknown_index.
  - intros c Hidx. rewrite manufacturer_str_unfold.
    apply lut_reserved_index; [rewrite Hidx; now vm_compute | | ]; easy.
  - intros c Hidx. rewrite revision_str_unfold.
    apply lut_reserved_index; [rewrite Hidx; now vm_compute | | ]; easy.
  - intros c Hge Hne. rewrite manufacturer_str_unfold.
    apply lut_unknown_index; [assumption | now right].
  - intros c Hge Hne. rewrite revision_str_unfold.
    apply lut_unknown_index; [assumption | now right].
  - intros c Hge. rewrite type_str_unfold.
    apply lut_unknown_index; [assumption | now left].
  - intros c Hge. rewrite processor_str_unfold.
    apply lut_unknown_index; [assumption | now left].
Qed.

(** At the manufacturer table: the reserved index, an unassigned index,
    and an index inside the table. *)
Lemma lut_three_tier_policy_witness :
  manufacturer_str 0xF0000 = Some "Qisda" /\
  revision_str 0xF = Some "2.0" /\
  manufacturer_str 0x90000 = Some "???" /\
  lut_to_str_with_invalid manufacturer_map (ARRAY_CNT manufacturer_map)
                          5 15 (Some "Qisda") = Some "Stadium".
Proof.
  destruct lut_three_tier_policy as [Hgen [Hqisda [Hrev [Hunk _]]]].
  split; [apply Hqisda; reflexivity |].
  split; [apply Hrev; reflexivity |].
  split; [apply Hunk; [vm_compute; discriminate | vm_compute; discriminate] |].
  destruct (Hgen manufacturer_map 5 15 (Some "Qisda")) as [Hbelow _].
  rewrite Hbelow; [reflexivity | vm_compute; reflexivity].
Defined.

(** ** Memory size *)

Section MemorySize.

Lemma below_8 (i : Z) :
  0 <= i < 8 ->
  i = 0 \/ i = 1 \/ i = 2 \/ i = 3 \/ i = 4 \/ i = 5 \/ i = 6 \/ i = 7.
Proof. lia. Qed.

Lemma mem_mbytes_map_count : ARRAY_CNT mem_mbytes_map = 6.
Proof. reflexivity. Qed.

(** The function only depends on the memory index. *)
Lemma physical_memory_mbytes_by_index (c : Z) :
  physical_memory_mbytes c =
  (let index := physical_memory_index c in
   if index >? ARRAY_CNT mem_mbytes_map then Some 0
   else array_get mem_mbytes_map index).
Proof.
  pose proof (physical_memory_index_range c) as Hr.
  unfold physical_memory_mbytes. cbv zeta.
  rewrite to_int_small by lia.
  rewrite to_size_t_small by (unfold is_revcode_32, UINT_MODULUS; lia).
  reflexivity.
Qed.

End MemorySize.

Ltac each_memory_index c :=
  let Hi := fresh "Hi" in
  destruct (below_8 _ (physical_memory_index_range c))
    as [Hi | [Hi | [Hi | [Hi | [Hi | [Hi | [Hi | Hi]]]]]]].

(** C3. When the memory index equals the length of the megabyte table
    the guard [index > ARRAY_CNT] does not fire, although the strict
    guard [index >= ARRAY_CNT] would, and the function reads
    [mem_mbytes_map[6]], one element past the six defined entries.  For
    every other index the read is inside the table (0 to 5) or guarded
    (7).  The code 0x00E00000 has memory index 6. *)
Theorem physical_memory_mbytes_off_by_one :
  (is_revcode_32 0x00E00000 /\ physical_memory_index 0x00E00000 = 6) /\
  forall c, is_revcode_32 c ->
    let index := physical_memory_index c in
    (index = ARRAY_CNT mem_mbytes_map ->
     (index >? ARRAY_CNT mem_mbytes_map) = false /\
     (index >=? ARRAY_CNT mem_mbytes_map) = true /\
     physical_memory_mbytes c =
       array_get mem_mbytes_map (ARRAY_CNT mem_mbytes_map) /\
     physical_memory_mbytes c = None) /\
    (index <> ARRAY_CNT mem_mbytes_map ->
     physical_memory_mbytes c <> None /\
     (0 <= index < ARRAY_CNT mem_mbytes_map \/
      (index >? ARRAY_CNT mem_mbytes_map) = true)).
Proof.
  split.
  - split; [unfold is_revcode_32, UINT_MODULUS; lia | reflexivity].
  - intros c _ index. subst index.
    rewrite physical_memory_mbytes_by_index, mem_mbytes_map_count.
    cbv zeta.
    each_memory_index c; rewrite Hi; split; intros Hidx;
      try discriminate Hidx; try (exfalso; apply Hidx; reflexivity);
      repeat split; try reflexivity; try discriminate;
      first [ left; lia | right; reflexivity ].
Qed.

Lemma physical_memory_mbytes_off_by_one_witness :
  physical_memory_mbytes 0x00E00000 = None /\
  physical_memory_mbytes 0x00F00000 <> None.
Proof.
  destruct physical_memory_mbytes_off_by_one as [[Hcode Hsix] Hall].
  split.
  - apply (Hall 0x00E00000 Hcode). reflexivity.
  - apply (Hall 0x00F00000).
    + unfold is_revcode_32, UINT_MODULUS. lia.
    + vm_compute. discriminate.
Defined.

(** C4, at the failing input.  The new-style code 0x00E00000 has memory
    index 6; the function does not return 0 there but reads past the
    table, and both renderers stop being defined at the memory line.
    At every other index the documented value is returned. *)
Theorem physical_memory_mbytes_index_6_undefined :
  physical_memory_index 0x00E00000 = 6 /\
  physical_memory_mbytes 0x00E00000 = None /\
  physical_memory_mbytes 0x00E00000 <> Some 0 /\
  fst (print_revision_text 0x00E00000 initial_world) = Undefined /\
  fst (print_revision_json 0x00E00000 initial_world) = Undefined /\
  (forall c,
     physical_memory_mbytes c =
       match physical_memory_index c with
       | 0 => Some 256 | 1 => Some 512 | 2 => Some 1024
       | 3 => Some 2048 | 4 => Some 4096 | 5 => Some 8192
       | 6 => None
       | _ => Some 0
       end).
Proof.
  repeat split; try reflexivity; try discriminate.
  intros c. rewrite physical_memory_mbytes_by_index. cbv zeta.
  each_memory_index c; rewrite Hi; reflexivity.
Qed.

(** ** Decimal conversion *)

Section Decimal.

Lemma string_length_app (s t : string) :
  String.length (s ++ t) = (String.length s + String.length t)%nat.
Proof. induction s as [| ch s IH]; cbn; [reflexivity | now rewrite IH]. Qed.

Lemma decimal_value_app (s t : string) (acc : Z) :
  decimal_value (s ++ t) acc = decimal_value t (decimal_value s acc).
Proof.
  revert acc. induction s as [| ch s IH]; intros acc; cbn; [reflexivity |].
  apply IH.
Qed.

Lemma all_digits_app (s t : string) :
  all_digits (s ++ t) = all_digits s && all_digits t.
Proof.
  induction s as [| ch s IH]; cbn; [reflexivity |].
  now rewrite IH, andb_assoc.
Qed.

Lemma digit_char_decimal (d : Z) :
  0 <= d < 10 -> digit_char d = ascii_of_nat (48 + Z.to_nat d).
Proof.
  intros Hd. unfold digit_char.
  destruct (Z.ltb_spec d 10); [reflexivity | lia].
Qed.

Lemma digit_value_char (d : Z) :
  0 <= d < 10 -> digit_value (digit_char d) = d.
Proof.
  intros Hd. rewrite digit_char_decimal by assumption.
  unfold digit_value. rewrite nat_ascii_embedding by lia. lia.
Qed.

Lemma is_digit_char (d : Z) : 0 <= d < 10 -> is_digit (digit_char d) = true.
Proof.
  intros Hd. rewrite digit_char_decimal by assumption.
  unfold is_digit. rewrite nat_ascii_embedding by lia.
  apply andb_true_intro. split; apply Z.leb_le; lia.
Qed.

Lemma digit_char_zero (d : Z) :
  0 <= d < 10 -> digit_char d = "0"%char -> d = 0.
Proof.
  intros Hd Hch. rewrite <- (digit_value_char d Hd), Hch. reflexivity.
Qed.

Lemma utoa_S (base : Z) (fuel : nat) (n : Z) :
  utoa base (S fuel) n =
  (if n <? base then EmptyString else utoa base fuel (n / base))
    ++ String (digit_char (n mod base)) EmptyString.
Proof. reflexivity. Qed.

Lemma pow10_S (k : nat) : 10 ^ Z.of_nat (S k) = 10 * 10 ^ Z.of_nat k.
Proof. rewrite Nat2Z.inj_succ. apply Z.pow_succ_r. lia. Qed.

Lemma pow10_pos (k : nat) : 0 < 10 ^ Z.of_nat k.
Proof. apply Z.pow_pos_nonneg; lia. Qed.

(** The numeral of a number that fits in the digits allowed. *)
Lemma utoa_canonical (fuel : nat) :
  forall n, 0 <= n < 10 ^ Z.of_nat (S fuel) ->
            canonical_decimal (utoa 10 (S fuel) n) n.
Proof.
  induction fuel as [| fuel IH]; intros n Hn; rewrite utoa_S.
  - change (10 ^ Z.of_nat 1) with 10 in Hn.
    destruct (Z.ltb_spec n 10) as [_ | Hge]; [| lia].
    rewrite Z.mod_small by lia. cbn [append].
    repeat split.
    + discriminate.
    + cbn. now rewrite is_digit_char.
    + cbn [decimal_value]. rewrite digit_value_char; lia.
    + intros rest Heq. now injection Heq.
  - assert (Hmod : 0 <= n mod 10 < 10) by (apply Z.mod_pos_bound; lia).
    destruct (Z.ltb_spec n 10) as [Hlt | Hge].
    + rewrite Z.mod_small by lia. cbn [append].
      repeat split.
      * discriminate.
      * cbn. now rewrite is_digit_char.
      * cbn [decimal_value]. rewrite digit_value_char; lia.
      * intros rest Heq. now injection Heq.
    + assert (Hq : 0 <= n / 10 < 10 ^ Z.of_nat (S fuel)).
      { rewrite pow10_S in Hn. split.
        - apply Z.div_pos; lia.
        - apply Z.div_lt_upper_bound; lia. }
      destruct (IH (n / 10) Hq) as [Hne [Hall [Hval Hlead]]].
      repeat split.
      * destruct (utoa 10 (S fuel) (n / 10)); [contradiction | discriminate].
      * rewrite all_digits_app, Hall. cbn. now rewrite is_digit_char.
      * rewrite decimal_value_app, Hval. cbn [decimal_value].
        rewrite digit_value_char by assumption.
        pose proof (Z.div_mod n 10 ltac:(lia)). lia.
      * intros rest Heq.
        destruct (utoa 10 (S fuel) (n / 10)) as [| ch p] eqn:Hp;
          [contradiction |].
        cbn [append] in Heq. injection Heq as Hch Hrest. subst ch.
        specialize (Hlead p eq_refl). subst p.
        cbn in Hval. change (digit_value "0") with 0 in Hval.
        assert (1 <= n / 10) by (apply Z.div_le_lower_bound; lia).
        lia.
Qed.

(** The numeral of a number below [10 ^ k] has at most [k] characters. *)
Lemma utoa_length (fuel : nat) :
  forall (k : nat) n,
    0 <= n < 10 ^ Z.of_nat (S k) ->
    (String.length (utoa 10 (S fuel) n) <= S k)%nat.
Proof.
  induction fuel as [| fuel IH]; intros k n Hn; rewrite utoa_S;
    rewrite string_length_app; cbn [String.length];
    destruct (Z.ltb_spec n 10) as [Hlt | Hge]; cbn [String.length];
    try lia.
  { cbn [utoa String.length]. lia. }
  destruct k as [| k].
  - change (10 ^ Z.of_nat 1) with 10 in Hn. lia.
  - assert (Hq : 0 <= n / 10 < 10 ^ Z.of_nat (S k)).
    { rewrite pow10_S in Hn. split.
      - apply Z.div_pos; lia.
      - apply Z.div_lt_upper_bound; lia. }
    specialize (IH k (n / 10) Hq). lia.
Qed.

Lemma fmt_d_small (n : Z) : 0 <= n < 2 ^ 31 -> fmt_d n = utoa 10 DIGITS n.
Proof.
  intros Hn. unfold fmt_d. cbv zeta. rewrite to_int_small by assumption.
  destruct (Z.ltb_spec n 0); [lia | reflexivity].
Qed.

Lemma fmt_d_canonical (n : Z) :
  0 <= n < 2 ^ 31 -> canonical_decimal (fmt_d n) n.
Proof.
  intros Hn. rewrite fmt_d_small by assumption.
  apply (utoa_canonical 31).
  assert (2 ^ 31 <= 10 ^ Z.of_nat 32) by (vm_compute; discriminate). lia.
Qed.

Lemma fmt_d_length (n : Z) :
  0 <= n <= 9999 -> (String.length (fmt_d n) <= 4)%nat.
Proof.
  intros Hn. rewrite fmt_d_small by lia.
  apply (utoa_length 31 3).
  change (10 ^ Z.of_nat 4) with 10000. lia.
Qed.

End Decimal.

(** ** Hexadecimal conversion *)

Section Hexadecimal.

Lemma hex_value_app (s t : string) (acc : Z) :
  hex_value (s ++ t) acc = hex_value t (hex_value s acc).
Proof.
  revert acc. induction s as [| ch s IH]; intros acc; cbn; [reflexivity |].
  apply IH.
Qed.

Lemma hex_digit_value_char (d : Z) :
  0 <= d < 16 -> hex_digit_value (digit_char d) = d.
Proof.
  intros Hd. unfold hex_digit_value, digit_char. cbv zeta.
  destruct (Z.ltb_spec d 10); rewrite nat_ascii_embedding by lia.
  - destruct (Z.ltb_spec (Z.of_nat (48 + Z.to_nat d)) 65); lia.
  - destruct (Z.ltb_spec (Z.of_nat (55 + Z.to_nat d)) 65); lia.
Qed.

Lemma pow16_S (k : nat) : 16 ^ Z.of_nat (S k) = 16 * 16 ^ Z.of_nat k.
Proof. rewrite Nat2Z.inj_succ. apply Z.pow_succ_r. lia. Qed.

Lemma utoa_hex_value (fuel : nat) :
  forall n, 0 <= n < 16 ^ Z.of_nat (S fuel) ->
            hex_value (utoa 16 (S fuel) n) 0 = n.
Proof.
  induction fuel as [| fuel IH]; intros n Hn; rewrite utoa_S.
  - change (16 ^ Z.of_nat 1) with 16 in Hn.
    destruct (Z.ltb_spec n 16) as [_ | Hge]; [| lia].
    rewrite Z.mod_small by lia. cbn [append hex_value].
    rewrite hex_digit_value_char; lia.
  - assert (Hmod : 0 <= n mod 16 < 16) by (apply Z.mod_pos_bound; lia).
    destruct (Z.ltb_spec n 16) as [Hlt | Hge].
    + rewrite Z.mod_small by lia. cbn [append hex_value].
      rewrite hex_digit_value_char; lia.
    + rewrite hex_value_app, IH.
      * cbn [hex_value]. rewrite hex_digit_value_char by assumption.
        pose proof (Z.div_mod n 16 ltac:(lia)). lia.
      * rewrite pow16_S in Hn. split.
        -- apply Z.div_pos; lia.
        -- apply Z.div_lt_upper_bound; lia.
Qed.

(** The digits allowed suffice for every revision code. *)
Lemma fmt_X_value (c : Z) : is_revcode_32 c -> hex_value (fmt_X c) 0 = c.
Proof.
  intros Hc. unfold fmt_X. rewrite to_uint_small by assumption.
  apply (utoa_hex_value 31).
  unfold is_revcode_32, UINT_MODULUS in Hc.
  assert (2 ^ 32 <= 16 ^ Z.of_nat 32) by (vm_compute; discriminate). lia.
Qed.

End Hexadecimal.

(** ** Memory size as text *)

Section MemoryText.

Lemma sprintf_fits (cap : Z) (text : string) :
  Z.of_nat (String.length text) + 1 <= cap -> sprintf cap text = Some text.
Proof.
  intros Hfit. unfold sprintf.
  destruct (Z.leb_spec (Z.of_nat (String.length text) + 1) cap);
    [reflexivity | lia].
Qed.

Lemma sprintf_unit (n : Z) (unit : string) :
  0 <= n <= 9999 -> String.length unit = 2%nat ->
  sprintf (4 + 2 + 1) (fmt_d n ++ unit) = Some (fmt_d n ++ unit).
Proof.
  intros Hn Hunit. apply sprintf_fits.
  rewrite string_length_app, Hunit.
  pose proof (fmt_d_length n Hn). lia.
Qed.

Lemma giga_bytes_div (mega_bytes : Z) :
  Z.shiftr mega_bytes 10 = mega_bytes / 1024.
Proof. now rewrite Z.shiftr_div_pow2 by lia. Qed.

Lemma result_str_GB (mega_bytes : Z) :
  1024 <= mega_bytes -> mega_bytes / 1024 <= 9999 ->
  result_str mega_bytes = Some (fmt_d (mega_bytes / 1024) ++ "GB").
Proof.
  intros Hge Hfit. unfold result_str. cbv zeta. rewrite giga_bytes_div.
  destruct (Z.geb_spec mega_bytes 1024); [| lia].
  destruct (Z.leb_spec (mega_bytes / 1024) 9999); [| lia].
  apply sprintf_unit; [| reflexivity].
  split; [apply Z.div_pos; lia | assumption].
Qed.

Lemma result_str_empty (mega_bytes : Z) :
  1024 <= mega_bytes -> 9999 < mega_bytes / 1024 ->
  result_str mega_bytes = Some EmptyString.
Proof.
  intros Hge Hbig. unfold result_str. cbv zeta. rewrite giga_bytes_div.
  destruct (Z.geb_spec mega_bytes 1024); [| lia].
  destruct (Z.leb_spec (mega_bytes / 1024) 9999); [lia | reflexivity].
Qed.

Lemma result_str_MB (mega_bytes : Z) :
  0 <= mega_bytes < 1024 ->
  result_str mega_bytes = Some (fmt_d mega_bytes ++ "MB").
Proof.
  intros Hlt. unfold result_str.
  destruct (Z.geb_spec mega_bytes 1024); [lia |].
  apply sprintf_unit; [lia | reflexivity].
Qed.

(** The caller's buffer of eight bytes holds every text produced. *)
Lemma physical_memory_str_8 (c mega_bytes : Z) :
  physical_memory_mbytes c = Some mega_bytes ->
  physical_memory_str c 8 = result_str mega_bytes.
Proof.
  unfold physical_memory_str.
  rewrite physical_memory_mbytes_by_index. cbv zeta.
  each_memory_index c; rewrite Hi; intros Hmb;
    first [ discriminate Hmb
          | injection Hmb as <-; reflexivity ].
Qed.

End MemoryText.

(** C5. For a megabyte value of at least 1024 the text is the decimal
    numeral of [mbytes / 1024] (integer division) followed by "GB" when
    that quotient is at most 9999, and the empty string when it is
    larger; below 1024 it is the decimal numeral of [mbytes] followed by
    "MB".  The numerals have no leading zero and no padding.  With the
    eight-byte buffer of the callers this text is the memory string of
    every code whose megabyte value is defined; memory index 5 gives
    8192 MB and "8GB", memory index 1 gives 512 MB and "512MB". *)
Theorem memory_format_rule :
  (forall mbytes, is_revcode_32 mbytes ->
     (1024 <= mbytes -> mbytes / 1024 <= 9999 ->
      exists digits, canonical_decimal digits (mbytes / 1024) /\
                     result_str mbytes = Some (digits ++ "GB")) /\
     (1024 <= mbytes -> 9999 < mbytes / 1024 ->
      result_str mbytes = Some EmptyString) /\
     (mbytes < 1024 ->
      exists digits, canonical_decimal digits mbytes /\
                     result_str mbytes = Some (digits ++ "MB"))) /\
  (forall c mbytes, physical_memory_mbytes c = Some mbytes ->
                    physical_memory_str c 8 = result_str mbytes) /\
  (forall c, physical_memory_index c = 5 ->
             physical_memory_mbytes c = Some 8192 /\
             physical_memory_str c 8 = Some "8GB") /\
  (forall c, physical_memory_index c = 1 ->
             physical_memory_mbytes c = Some 512 /\
             physical_memory_str c 8 = Some "512MB").
Proof.
  split; [| split; [| split]].
  - intros mbytes Hm. unfold is_revcode_32, UINT_MODULUS in Hm.
    split; [| split].
    + intros Hge Hfit. exists (fmt_d (mbytes / 1024)). split.
      * apply fmt_d_canonical. split; [apply Z.div_pos; lia | lia].
      * now apply result_str_GB.
    + apply result_str_empty.
    + intros Hlt. exists (fmt_d mbytes). split.
      * apply fmt_d_canonical. lia.
      * apply result_str_MB. lia.
  - apply physical_memory_str_8.
  - intros c Hidx.
    assert (Hmb : physical_memory_mbytes c = Some 8192)
      by (rewrite physical_memory_mbytes_by_index, Hidx; reflexivity).
    split; [assumption |].
    now rewrite (physical_memory_str_8 c 8192 Hmb).
  - intros c Hidx.
    assert (Hmb : physical_memory_mbytes c = Some 512)
      by (rewrite physical_memory_mbytes_by_index, Hidx; reflexivity).
    split; [assumption |].
    now rewrite (physical_memory_str_8 c 512 Hmb).
Qed.

(** At 8192 MB, at 512 MB, at a quotient of five digits, and at the
    codes 0x00D00000 (memory index 5) and 0x00900000 (memory index 1). *)
Lemma memory_format_rule_witness :
  (exists digits, canonical_decimal digits (8192 / 1024) /\
                  result_str 8192 = Some (digits ++ "GB")) /\
  result_str (10000 * 1024) = Some EmptyString /\
  (exists digits, canonical_decimal digits 512 /\
                  result_str 512 = Some (digits ++ "MB")) /\
  physical_memory_str 0x00D00000 8 = Some "8GB" /\
  physical_memory_str 0x00900000 8 = Some "512MB".
Proof.
  destruct memory_format_rule as [Hfmt [_ [Hfive Hone]]].
  assert (H8192 : is_revcode_32 8192)
    by (unfold is_revcode_32, UINT_MODULUS; lia).
  assert (Hbig : is_revcode_32 (10000 * 1024))
    by (unfold is_revcode_32, UINT_MODULUS; lia).
  assert (H512 : is_revcode_32 512)
    by (unfold is_revcode_32, UINT_MODULUS; lia).
  split; [apply (Hfmt 8192 H8192); [lia | vm_compute; discriminate] |].
  split; [apply (Hfmt (10000 * 1024) Hbig); [lia | vm_compute; reflexivity] |].
  split; [apply (Hfmt 512 H512); lia |].
  split; [apply (Hfive 0x00D00000); reflexivity
         | apply (Hone 0x00900000); reflexivity].
Defined.

(** ** The legacy table *)

(** C7, as stated: the table does not have 19 populated slots. *)
Lemma old_revision_map_not_19_slots :
  populated_slots old_revision_map <> 19%nat.
Proof. vm_compute. discriminate. Qed.

(** C7, amended.  The table has 22 slots of which 17 are populated
    (indices 2 to 9 and 13 to 21); inside the table exactly the indices
    0, 1, 10, 11 and 12 hold the sentinel.  [map_old_to_new] returns a
    code for every populated index and ends in the fatal error for each
    of 0, 1, 10, 11 and 12. *)
Theorem old_revision_map_slots :
  ARRAY_CNT old_revision_map = 22 /\
  populated_slots old_revision_map = 17%nat /\
  (forall c, 0 <= c < ARRAY_CNT old_revision_map ->
     (not_valid_entry c <->
      c = 0 \/ c = 1 \/ c = 10 \/ c = 11 \/ c = 12)) /\
  (forall c w, 0 <= c < ARRAY_CNT old_revision_map ->
     ~ not_valid_entry c ->
     exists v, map_old_to_new c w = (Returned v, w)) /\
  (forall c w, c = 0 \/ c = 1 \/ c = 10 \/ c = 11 \/ c = 12 ->
     map_old_to_new c w = UnknownLegacyCode w).
Proof.
  split; [reflexivity |]. split; [reflexivity |].
  rewrite old_revision_map_count. unfold not_valid_entry.
  split; [| split].
  - intros c Hr.
    each_slot Hr;
      (split;
       [ first [ discriminate | intros _; lia ]
       | first [ intros _; reflexivity | intros Hc; exfalso; lia ] ]).
  - intros c w Hr Hvalid.
    each_slot Hr;
      first [ exfalso; apply Hvalid; reflexivity
            | eexists; reflexivity ].
  - intros c w [-> | [-> | [-> | [-> | ->]]]]; reflexivity.
Qed.

Lemma old_revision_map_slots_witness :
  (not_valid_entry 10 <-> 10 = 0 \/ 10 = 1 \/ 10 = 10 \/ 10 = 11 \/ 10 = 12) /\
  (exists v, map_old_to_new 0x15 initial_world = (Returned v, initial_world)) /\
  map_old_to_new 0x0c initial_world = UnknownLegacyCode initial_world.
Proof.
  destruct old_revision_map_slots as [_ [_ [Hinvalid [Hvalid Hfail]]]].
  split; [apply (Hinvalid 10); rewrite old_revision_map_count; lia |].
  split.
  - apply (Hvalid 0x15 initial_world).
    + rewrite old_revision_map_count. lia.
    + unfold not_valid_entry. vm_compute. discriminate.
  - apply (Hfail 0x0c initial_world). right. right. right. right. reflexivity.
Defined.

(** ** Scenarios *)

(** C8, as stated: the processor index of 0x00A02082 is not 0. *)
Lemma scenario_B_processor_index_not_0 :
  ~ (revision_new_style 0x00A02082 = true /\
     type_index 0x00A02082 = 0x08 /\
     physical_memory_index 0x00A02082 = 2 /\
     processor_index 0x00A02082 = 0 /\
     manufacturer_index 0x00A02082 = 0).
Proof. intros [_ [_ [_ [Hproc _]]]]. vm_compute in Hproc. discriminate. Qed.

(** C8, amended.  The code 0x00A02082 has the new-style bit set and is
    kept by [map_old_to_new]; its type index is 0x08 ("3B"), its memory
    index 2 (1024 MB, "1GB"), its processor index 2 ("BCM2837"), its
    manufacturer index 0 ("Sony UK"), its revision index 2 ("1.2"); the
    four flags are the negations of bits 31, 30, 29 and 25, all clear
    here, and the text renderer prints the eleven lines below. *)
Theorem scenario_B_0x00A02082 :
  let code := 0x00A02082 in
  map_old_to_new code initial_world = (Returned code, initial_world) /\
  revision_new_style code = true /\
  (type_index code = 0x08 /\ type_str code = Some "3B") /\
  (physical_memory_index code = 2 /\
   physical_memory_mbytes code = Some 1024 /\
   physical_memory_str code 8 = Some "1GB") /\
  (processor_index code = 2 /\ processor_str code = Some "BCM2837") /\
  (manufacturer_index code = 0 /\ manufacturer_str code = Some "Sony UK") /\
  (revision_index code = 2 /\ revision_str code = Some "1.2") /\
  (overvoltage_allowed code = negb (Z.testbit code 31) /\
   otp_programming_allowed code = negb (Z.testbit code 30) /\
   otp_reading_allowed code = negb (Z.testbit code 29) /\
   warranty_intact code = negb (Z.testbit code 25)) /\
  (overvoltage_allowed code = true /\
   otp_programming_allowed code = true /\
   otp_reading_allowed code = true /\
   warranty_intact code = true) /\
  print_revision_text code initial_world =
    (Returned EXIT_SUCCESS,
     mkWorld ("Revision code 0xA02082 interpreted:" ++ nl ++
              "    Style           : New" ++ nl ++
              "    Overvoltage     : Allowed" ++ nl ++
              "    OTP Programming : Allowed" ++ nl ++
              "    OTP Reading     : Allowed" ++ nl ++
              "    Warranty        : Intact" ++ nl ++
              "    Type/Model      : 3B" ++ nl ++
              "    Revision        : 1.2" ++ nl ++
              "    Processor/SOC   : BCM2837" ++ nl ++
              "    Memory          : 1GB" ++ nl ++
              "    Manufacturer    : Sony UK" ++ nl)
             EmptyString).
Proof. cbv zeta. repeat split. Qed.

(** C9.  The legacy code 0x0002 is mapped to 0x10010, which is old
    style; its type is "B", its hardware revision "1.0", its memory
    "256MB" and its manufacturer "Egoman".  Both renderers print the
    style, type, revision, memory and manufacturer and nothing about
    the four permissions or the processor. *)
Theorem scenario_A_0x0002 :
  map_old_to_new 0x0002 initial_world = (Returned 0x10010, initial_world) /\
  revision_new_style 0x10010 = false /\
  type_str 0x10010 = Some "B" /\
  revision_str 0x10010 = Some "1.0" /\
  physical_memory_str 0x10010 8 = Some "256MB" /\
  manufacturer_str 0x10010 = Some "Egoman" /\
  print_revision_text 0x0002 initial_world =
    (Returned EXIT_SUCCESS,
     mkWorld ("Revision code 0x2 interpreted:" ++ nl ++
              "    Style           : Old" ++ nl ++
              "    Type/Model      : B" ++ nl ++
              "    Revision        : 1.0" ++ nl ++
              "    Memory          : 256MB" ++ nl ++
              "    Manufacturer    : Egoman" ++ nl)
             EmptyString) /\
  print_revision_json 0x0002 initial_world =
    (Returned EXIT_SUCCESS,
     mkWorld ("{" ++ nl ++
              "    revision_code: " ++ dquote ++ "0x2" ++ dquote ++ "," ++ nl ++
              "    style: " ++ dquote ++ "old" ++ dquote ++ "," ++ nl ++
              "    type: " ++ dquote ++ "B" ++ dquote ++ "," ++ nl ++
              "    revision: " ++ dquote ++ "1.0" ++ dquote ++ "," ++ nl ++
              "    memory: " ++ dquote ++ "256MB" ++ dquote ++ "," ++ nl ++
              "    manufacturer: " ++ dquote ++ "Egoman" ++ dquote ++ nl ++
              "}" ++ nl)
             EmptyString).
Proof. repeat split. Qed.

(** ** Mapped legacy codes stay old style *)

(** C10.  When a code with bit 23 clear is accepted by
    [map_old_to_new], the code returned has bit 23 clear as well:
    [revision_new_style] is false for it, the text renderer prints the
    style "Old" after the header line, and [map_old_to_new] applied to
    the returned code does not return that code. *)
Theorem mapped_legacy_code_is_old_style (c v : Z) (w : world) :
  is_revcode_32 c ->
  Z.testbit c 23 = false ->
  fst (map_old_to_new c w) = Returned v ->
  Z.testbit v 23 = false /\
  revision_new_style v = false /\
  fst (map_old_to_new v w) <> Returned v /\
  exists rest,
    stdout (snd (print_revision_text c initial_world)) =
    "Revision code 0x" ++ fmt_X c ++ " interpreted:" ++ nl ++
    "    Style           : Old" ++ nl ++ rest.
Proof.
  intros Hc Hbit Hret.
  destruct (Z.le_gt_cases (ARRAY_CNT old_revision_map) c) as [Hge | Hlt].
  - rewrite map_old_to_new_out_of_range in Hret by assumption.
    discriminate Hret.
  - rewrite old_revision_map_count in Hlt.
    assert (Hr : 0 <= c < 22) by (unfold is_revcode_32 in Hc; lia).
    clear Hc Hbit Hlt.
    each_slot Hr; cbv in Hret;
      first [ discriminate Hret
            | injection Hret as <-;
              split; [reflexivity |];
              split; [reflexivity |];
              split; [cbv; intros Hsame; discriminate Hsame
                     | eexists; reflexivity ] ].
Qed.

(** At the legacy code 0x0008, mapped to 0xF, itself a legacy index. *)
Lemma mapped_legacy_code_is_old_style_witness :
  revision_new_style 0xF = false /\
  fst (map_old_to_new 0xF initial_world) <> Returned 0xF.
Proof.
  assert (Hc : is_revcode_32 0x0008)
    by (unfold is_revcode_32, UINT_MODULUS; lia).
  destruct (mapped_legacy_code_is_old_style
              0x0008 0xF initial_world Hc eq_refl eq_refl)
    as [_ [Hstyle [Hagain _]]].
  split; assumption.
Defined.

(** * Further properties of the decoder *)

(** ** No lookup reads outside its table *)

Section DefinedLookups.

Lemma lut_total (lut : list string) (index invalid_index : Z)
    (invalid_index_str : option string) :
  0 <= index ->
  exists s,
    lut_to_str_with_invalid lut (ARRAY_CNT lut) index invalid_index
                            invalid_index_str = Some s /\
    (In s lut \/ invalid_index_str = Some s \/ s = "???").
Proof.
  intros Hidx.
  destruct (Z.lt_ge_cases index (ARRAY_CNT lut)) as [Hlt | Hge].
  - destruct (array_get_in_bounds lut index (conj Hidx Hlt))
      as [s [Hnth Hget]].
    exists s. split.
    + now rewrite lut_below_count.
    + left. eapply nth_error_In. eassumption.
  - destruct invalid_index_str as [s |].
    + destruct (Z.eq_dec index invalid_index) as [Heq | Hne].
      * exists s. split; [now apply lut_reserved_index | now right; left].
      * exists "???". split; [apply lut_unknown_index; auto | now right; right].
    + exists "???". split; [apply lut_unknown_index; auto | now right; right].
Qed.

End DefinedLookups.

(** The four string accessors resolve for every code. *)
Lemma field_strings_resolve (c : Z) :
  (exists s, type_str c = Some s /\ (In s type_map \/ s = "???")) /\
  (exists s, processor_str c = Some s /\
             (In s processor_map \/ s = "???")) /\
  (exists s, manufacturer_str c = Some s /\
             (In s manufacturer_map \/ s = "Qisda" \/ s = "???")) /\
  (exists s, revision_str c = Some s /\
             (In s revision_map \/ s = "2.0" \/ s = "???")).
Proof.
  split; [| split; [| split]].
  - rewrite type_str_unfold.
    destruct (lut_total type_map (type_index c) 0 None)
      as [s [Hs [Hin | [Hsub | Hunk]]]];
      [pose proof (type_index_range c); lia | | |];
      exists s; split; auto; discriminate.
  - rewrite processor_str_unfold.
    destruct (lut_total processor_map (processor_index c) 0 None)
      as [s [Hs [Hin | [Hsub | Hunk]]]];
      [pose proof (processor_index_range c); lia | | |];
      exists s; split; auto; discriminate.
  - rewrite manufacturer_str_unfold.
    destruct (lut_total manufacturer_map (manufacturer_index c) 15
                        (Some "Qisda"))
      as [s [Hs [Hin | [Hsub | Hunk]]]];
      [pose proof (manufacturer_index_range c); lia | | |];
      exists s; split; auto.
    injection Hsub as <-. auto.
  - rewrite revision_str_unfold.
    destruct (lut_total revision_map (revision_index c) 15 (Some "2.0"))
      as [s [Hs [Hin | [Hsub | Hunk]]]];
      [pose proof (revision_index_range c); lia | | |];
      exists s; split; auto.
    injection Hsub as <-. auto.
Qed.

(** X1.  For every code each of the four string accessors is defined:
    the index extracted from the code is never negative, so the table
    is only read inside its bounds.  The result is an entry of the
    table, the substitute of the reserved index (manufacturer and
    revision only), or "???". *)
Theorem field_strings_defined (c : Z) :
  (exists s, type_str c = Some s /\ (In s type_map \/ s = "???")) /\
  (exists s, processor_str c = Some s /\
             (In s processor_map \/ s = "???")) /\
  (exists s, manufacturer_str c = Some s /\
             (In s manufacturer_map \/ s = "Qisda" \/ s = "???")) /\
  (exists s, revision_str c = Some s /\
             (In s revision_map \/ s = "2.0" \/ s = "???")).
Proof. exact (field_strings_resolve c). Qed.

(** ** The memory text and the caller's buffer *)

Section MemoryBuffer.

Lemma substring_0_length (n : nat) (s : string) :
  String.length (substring 0 n s) = Nat.min n (String.length s).
Proof.
  revert n. induction s as [| ch s IH]; intros [| n]; cbn; try reflexivity.
  now rewrite IH.
Qed.

Lemma substring_0_all (n : nat) (s : string) :
  (String.length s <= n)%nat -> substring 0 n s = s.
Proof.
  revert n. induction s as [| ch s IH]; intros [| n] Hlen; cbn in *;
    try reflexivity; try lia.
  rewrite IH by lia. reflexivity.
Qed.

Lemma substring_0_prefix (n : nat) (s : string) :
  prefix (substring 0 n s) s = true.
Proof.
  revert n. induction s as [| ch s IH]; intros [| n]; cbn; try reflexivity.
  destruct (ascii_dec ch ch) as [_ | Hne]; [apply IH | contradiction].
Qed.

(** The megabyte value and the formatted text of every index but 6. *)
Lemma memory_text_by_index (c : Z) :
  physical_memory_index c <> 6 ->
  exists mega_bytes text,
    physical_memory_mbytes c = Some mega_bytes /\
    result_str mega_bytes = Some text /\
    (String.length text <= 6)%nat.
Proof.
  intros Hne.
  each_memory_index c; try contradiction;
    do 2 eexists;
    (split; [rewrite physical_memory_mbytes_by_index, Hi; reflexivity |]);
    (split; [reflexivity | cbv; lia]).
Qed.

Lemma physical_memory_str_sized (c result_size mega_bytes : Z)
    (text : string) :
  physical_memory_mbytes c = Some mega_bytes ->
  result_str mega_bytes = Some text ->
  1 <= result_size < SIZE_MODULUS ->
  physical_memory_str c result_size =
  Some (strncpy text (result_size - 1)).
Proof.
  intros Hmb Htext Hsize. unfold physical_memory_str.
  rewrite Hmb, Htext. cbv zeta.
  unfold to_size_t. rewrite Z.mod_small by lia.
  destruct (Z.ltb_spec (result_size - 1) result_size); [reflexivity | lia].
Qed.

Lemma physical_memory_str_no_room (c : Z) : physical_memory_str c 0 = None.
Proof.
  unfold physical_memory_str.
  destruct (physical_memory_mbytes c) as [mega_bytes |]; [| reflexivity].
  destruct (result_str mega_bytes) as [text |]; reflexivity.
Qed.

End MemoryBuffer.

(** X2.  For a code whose memory index is not 6 and a buffer of at
    least one byte, [physical_memory_str] yields a prefix of the full
    text (the one obtained with the eight-byte buffer of the callers),
    cut to [result_size - 1] characters so that text and terminator
    fit the buffer; from seven bytes on it is the full text.  With
    [result_size = 0] the length passed to [strncpy] wraps around and
    the call is undefined for every code. *)
Theorem physical_memory_str_fits_buffer (c result_size : Z) :
  (physical_memory_index c <> 6 ->
   1 <= result_size < SIZE_MODULUS ->
   exists full text,
     physical_memory_str c 8 = Some full /\
     physical_memory_str c result_size = Some text /\
     prefix text full = true /\
     Z.of_nat (String.length text) =
       Z.min (result_size - 1) (Z.of_nat (String.length full)) /\
     Z.of_nat (String.length text) + 1 <= result_size /\
     (7 <= result_size -> text = full)) /\
  physical_memory_str c 0 = None.
Proof.
  split; [| apply physical_memory_str_no_room].
  intros Hne Hsize.
  destruct (memory_text_by_index c Hne) as [mb [full [Hmb [Hfull Hlen]]]].
  exists full, (strncpy full (result_size - 1)).
  assert (Hlength :
            Z.of_nat (String.length (strncpy full (result_size - 1))) =
            Z.min (result_size - 1) (Z.of_nat (String.length full))).
  { unfold strncpy. rewrite substring_0_length. lia. }
  split.
  - rewrite (physical_memory_str_sized c 8 mb full Hmb Hfull)
      by (unfold SIZE_MODULUS; lia).
    unfold strncpy. rewrite substring_0_all; [reflexivity |].
    change (Z.to_nat (8 - 1)) with 7%nat. lia.
  - split; [now apply (physical_memory_str_sized c result_size mb) |].
    split; [apply substring_0_prefix |].
    split; [exact Hlength |].
    split; [lia |].
    intros Hbig. unfold strncpy. apply substring_0_all. lia.
Qed.

(** With a buffer of four bytes the text "256MB" of the code 0x10010
    is cut to three characters. *)
Lemma physical_memory_str_fits_buffer_witness :
  (exists full text,
     physical_memory_str 0x10010 8 = Some full /\
     physical_memory_str 0x10010 4 = Some text /\
     prefix text full = true /\
     Z.of_nat (String.length text) = Z.min (4 - 1) (Z.of_nat (String.length full)) /\
     Z.of_nat (String.length text) + 1 <= 4 /\
     (7 <= 4 -> text = full)) /\
  physical_memory_str 0x10010 4 = Some "256".
Proof.
  split; [| reflexivity].
  apply (physical_memory_str_fits_buffer 0x10010 4).
  - vm_compute. discriminate.
  - unfold SIZE_MODULUS. lia.
Defined.

(** ** Output is only appended *)

Section Framing.

Lemma string_app_assoc (s t u : string) : (s ++ t) ++ u = s ++ t ++ u.
Proof. induction s as [| ch s IH]; cbn; [reflexivity | now rewrite IH]. Qed.

Lemma string_app_nil_r (s : string) : s ++ EmptyString = s.
Proof. induction s as [| ch s IH]; cbn; [reflexivity | now rewrite IH]. Qed.

Lemma append_world_initial_l (d : world) : append_world initial_world d = d.
Proof. now destruct d. Qed.

Lemma append_world_initial_r (w : world) : append_world w initial_world = w.
Proof.
  destruct w as [o e]. unfold append_world. cbn.
  now rewrite !string_app_nil_r.
Qed.

Lemma append_world_assoc (w d e : world) :
  append_world (append_world w d) e = append_world w (append_world d e).
Proof. unfold append_world. cbn. now rewrite !string_app_assoc. Qed.

Context {A B : Type}.

Lemma appends_ret (a : A) : appends_output (ret a).
Proof. intros w. cbn. now rewrite append_world_initial_r. Qed.

Lemma appends_exit (status : Z) : appends_output (@exit A status).
Proof. intros w. cbn. now rewrite append_world_initial_r. Qed.

Lemma appends_defined (o : option A) : appends_output (defined o).
Proof.
  intros w. destruct o; cbn; now rewrite append_world_initial_r.
Qed.

Lemma appends_bind (m : prog A) (k : A -> prog B) :
  appends_output m -> (forall a, appends_output (k a)) ->
  appends_output (bind m k).
Proof.
  intros Hm Hk w. unfold bind. rewrite (Hm w).
  destruct (m initial_world) as [[a | status |] d]; cbn [fst snd];
    try reflexivity.
  rewrite (Hk a (append_world w d)), (Hk a d).
  cbn [fst snd]. now rewrite append_world_assoc.
Qed.

End Framing.

Lemma appends_printf (text : string) : appends_output (printf text).
Proof.
  intros w. unfold printf, append_world. cbn.
  now rewrite string_app_nil_r.
Qed.

Lemma appends_fprintf_stderr (text : string) :
  appends_output (fprintf_stderr text).
Proof.
  intros w. unfold fprintf_stderr, append_world. cbn.
  now rewrite string_app_nil_r.
Qed.

Lemma appends_when (b : bool) (m : prog unit) :
  appends_output m -> appends_output (when b m).
Proof. intros Hm. destruct b; [exact Hm | apply appends_ret]. Qed.

Create HintDb appends.
#[local] Hint Resolve appends_ret appends_exit appends_defined appends_bind
  appends_printf appends_fprintf_stderr appends_when : appends.

Lemma appends_map_old_to_new (c : Z) : appends_output (map_old_to_new c).
Proof.
  unfold map_old_to_new.
  destruct (negb (revision_new_style c)); [| auto with appends].
  apply appends_bind.
  - destruct (to_size_t c <? ARRAY_CNT old_revision_map);
      auto with appends.
  - intros v. destruct (v =? OLD_REV_NOT_VALID); auto with appends.
Qed.

#[local] Hint Resolve appends_map_old_to_new : appends.

Lemma appends_print_revision_text (c : Z) :
  appends_output (print_revision_text c).
Proof. unfold print_revision_text. auto 20 with appends. Qed.

Lemma appends_print_revision_json (c : Z) :
  appends_output (print_revision_json c).
Proof. unfold print_revision_json. auto 20 with appends. Qed.

#[local] Hint Resolve appends_print_revision_text
  appends_print_revision_json : appends.


(** ** How the renderers end *)

Section RendererOutcome.

Variable c : Z.
Variable w : world.

Ltac run_monad :=
  cbv beta iota zeta delta [bind printf when defined ret fst snd].

Lemma renderers_new_style :
  Z.testbit c 23 = true ->
  fst (print_revision_text c w) =
    (if physical_memory_index c =? 6 then Undefined
     else Returned EXIT_SUCCESS) /\
  fst (print_revision_json c w) =
    (if physical_memory_index c =? 6 then Undefined
     else Returned EXIT_SUCCESS).
Proof.
  intros Hbit.
  destruct (field_strings_resolve c)
    as [[st [Ht _]] [[sp [Hp _]] [[sm [Hm _]] [sr [Hr _]]]]].
  assert (Hmem : physical_memory_str c 8 = None /\
                 physical_memory_index c = 6 \/
                 (exists text, physical_memory_str c 8 = Some text) /\
                 physical_memory_index c <> 6).
  { destruct (Z.eq_dec (physical_memory_index c) 6) as [Heq | Hne].
    - left. split; [| assumption]. unfold physical_memory_str.
      rewrite physical_memory_mbytes_by_index, Heq. reflexivity.
    - right. split; [| assumption].
      destruct (memory_text_by_index c Hne) as [mb [text [Hmb [Htext _]]]].
      exists (strncpy text (8 - 1)).
      apply (physical_memory_str_sized c 8 mb text Hmb Htext).
      unfold SIZE_MODULUS. lia. }
  unfold print_revision_text, print_revision_json. run_monad.
  rewrite !(map_old_to_new_new_style c _ Hbit).
  rewrite revision_new_style_bit, Hbit, Ht, Hr, Hp.
  destruct Hmem as [[Hnone Hidx] | [[text Hsome] Hidx]].
  - rewrite Hnone, Hidx. now split.
  - rewrite Hsome, Hm.
    destruct (Z.eqb_spec (physical_memory_index c) 6); [contradiction |].
    now split.
Qed.

End RendererOutcome.

Section LegacyOutcome.

Variable c : Z.
Variable w : world.
Hypothesis Hcode : is_revcode_32 c.
Hypothesis Hbit : Z.testbit c 23 = false.

Ltac run_monad :=
  cbv beta iota zeta delta [bind printf when defined ret fst snd].

Lemma renderers_legacy_rejected :
  ARRAY_CNT old_revision_map <= c \/ not_valid_entry c ->
  fst (print_revision_text c w) = Exited EXIT_FAILURE /\
  fst (print_revision_json c w) = Exited EXIT_FAILURE.
Proof.
  intros Hbad.
  assert (Hmap : forall w', map_old_to_new c w' = UnknownLegacyCode w').
  { intros w'.
    destruct (Z.le_gt_cases (ARRAY_CNT old_revision_map) c) as [Hge | Hlt];
      [now apply map_old_to_new_out_of_range |].
    destruct Hbad as [Hge | Hentry]; [lia |].
    rewrite old_revision_map_count in Hlt.
    assert (Hr : 0 <= c < 22) by (unfold is_revcode_32 in Hcode; lia).
    unfold not_valid_entry in Hentry. revert Hentry.
    each_slot Hr; intros Hentry;
      first [ reflexivity | discriminate Hentry ]. }
  unfold print_revision_text, print_revision_json. run_monad.
  rewrite !Hmap. now split.
Qed.

Lemma renderers_legacy_accepted :
  c < ARRAY_CNT old_revision_map -> ~ not_valid_entry c ->
  fst (print_revision_text c w) = Returned EXIT_SUCCESS /\
  fst (print_revision_json c w) = Returned EXIT_SUCCESS.
Proof.
  intros Hlt Hvalid. rewrite old_revision_map_count in Hlt.
  assert (Hr : 0 <= c < 22) by (unfold is_revcode_32 in Hcode; lia).
  clear Hcode Hbit Hlt. unfold not_valid_entry in Hvalid.
  each_slot Hr;
    first [ exfalso; apply Hvalid; reflexivity
          | split; reflexivity ].
Qed.

End LegacyOutcome.

(** X4.  The two renderers end in the same way on every code.  They
    exit with failure exactly for a rejected legacy code, are undefined
    exactly for a new-style code with memory index 6, and return
    [EXIT_SUCCESS] in every other case. *)
Theorem renderers_outcome (c : Z) (w : world) :
  is_revcode_32 c ->
  let text := fst (print_revision_text c w) in
  let json := fst (print_revision_json c w) in
  text = json /\
  (text = Exited EXIT_FAILURE <->
   Z.testbit c 23 = false /\
   (ARRAY_CNT old_revision_map <= c \/ not_valid_entry c)) /\
  (text = Undefined <->
   Z.testbit c 23 = true /\ physical_memory_index c = 6) /\
  (text = Returned EXIT_SUCCESS <->
   Z.testbit c 23 = true /\ physical_memory_index c <> 6 \/
   Z.testbit c 23 = false /\
   c < ARRAY_CNT old_revision_map /\ ~ not_valid_entry c).
Proof.
  intros Hcode. cbv zeta.
  assert (Hdec : not_valid_entry c \/ ~ not_valid_entry c).
  { unfold not_valid_entry.
    destruct (array_get old_revision_map c) as [e |]; [| now right].
    destruct (Z.eq_dec e (to_int OLD_REV_NOT_VALID)) as [-> | Hne];
      [now left | right; congruence]. }
  destruct (Z.testbit c 23) eqn:Hbit.
  - destruct (renderers_new_style c w Hbit) as [-> ->].
    destruct (Z.eqb_spec (physical_memory_index c) 6) as [Hsix | Hne];
      (split; [reflexivity |]); repeat split; intros;
      intuition (try discriminate; try lia; try congruence).
  - destruct (Z.le_gt_cases (ARRAY_CNT old_revision_map) c) as [Hge | Hlt];
      [| destruct Hdec as [Hbad | Hvalid]].
    + destruct (renderers_legacy_rejected c w Hcode Hbit (or_introl Hge))
        as [-> ->].
      (split; [reflexivity |]); repeat split; intros;
        intuition (try discriminate; try lia; try congruence).
    + destruct (renderers_legacy_rejected c w Hcode Hbit (or_intror Hbad))
        as [-> ->].
      (split; [reflexivity |]); repeat split; intros;
        intuition (try discriminate; try lia; try congruence).
    + destruct (renderers_legacy_accepted c w Hcode Hlt Hvalid)
        as [-> ->].
      (split; [reflexivity |]); repeat split; intros;
        intuition (try discriminate; try lia; try congruence).
Qed.

(** At 0x00A02082 (returns), 0x00E00000 (undefined) and 0x000A (exits). *)
Lemma renderers_outcome_witness :
  fst (print_revision_text 0x00A02082 initial_world) =
    fst (print_revision_json 0x00A02082 initial_world) /\
  (fst (print_revision_text 0x00E00000 initial_world) = Undefined <->
   Z.testbit 0x00E00000 23 = true /\ physical_memory_index 0x00E00000 = 6) /\
  (fst (print_revision_text 0x000A initial_world) = Exited EXIT_FAILURE <->
   Z.testbit 0x000A 23 = false /\
   (ARRAY_CNT old_revision_map <= 0x000A \/ not_valid_entry 0x000A)).
Proof.
  assert (Hrange : forall c, 0 <= c <= 0xFFFFFFFF -> is_revcode_32 c)
    by (intros c Hc; unfold is_revcode_32, UINT_MODULUS; lia).
  destruct (renderers_outcome 0x00A02082 initial_world
              (Hrange 0x00A02082 ltac:(lia))) as [Hsame _].
  destruct (renderers_outcome 0x00E00000 initial_world
              (Hrange 0x00E00000 ltac:(lia))) as [_ [_ [Hundefined _]]].
  destruct (renderers_outcome 0x000A initial_world
              (Hrange 0x000A ltac:(lia))) as [_ [Hexit _]].
  split; [exact Hsame | split; [exact Hundefined | exact Hexit]].
Defined.

(** ** What an accepted legacy code decodes to *)

(** X5.  The code returned for an accepted legacy code has only its
    type, revision, memory and manufacturer fields set, and every one
    of them resolves: the type is one of the five early models, the
    revision prints as "1.0" or "2.0", the memory as "256MB" or
    "512MB", and the manufacturer is never "???". *)
Theorem accepted_legacy_code_fields (c v : Z) (w : world) :
  is_revcode_32 c ->
  Z.testbit c 23 = false ->
  fst (map_old_to_new c w) = Returned v ->
  (0 <= v < 2 ^ 21 /\ processor_index v = 0) /\
  (exists s, type_str v = Some s /\ In s ["A"; "B"; "A+"; "B+"; "CM1"]) /\
  (revision_str v = Some "1.0" \/ revision_str v = Some "2.0") /\
  (physical_memory_str v 8 = Some "256MB" \/
   physical_memory_str v 8 = Some "512MB") /\
  (exists s, manufacturer_str v = Some s /\
             In s ["Sony UK"; "Egoman"; "Embest"; "Qisda"]).
Proof.
  intros Hc Hbit Hret.
  destruct (Z.le_gt_cases (ARRAY_CNT old_revision_map) c) as [Hge | Hlt].
  - rewrite map_old_to_new_out_of_range in Hret by assumption.
    discriminate Hret.
  - rewrite old_revision_map_count in Hlt.
    assert (Hr : 0 <= c < 22) by (unfold is_revcode_32 in Hc; lia).
    clear Hc Hbit Hlt.
    each_slot Hr; cbv in Hret;
      first [ discriminate Hret
            | injection Hret as <-;
              split; [split; [lia | reflexivity] |];
              split; [eexists; split; [reflexivity | cbn; tauto] |];
              split; [first [left; reflexivity | right; reflexivity] |];
              split; [first [left; reflexivity | right; reflexivity] |];
              eexists; split; [reflexivity | cbn; tauto] ].
Qed.

(** At the legacy code 0x0010, mapped to 0x100030. *)
Lemma accepted_legacy_code_fields_witness :
  processor_index 0x100030 = 0 /\
  (revision_str 0x100030 = Some "1.0" \/ revision_str 0x100030 = Some "2.0").
Proof.
  assert (Hc : is_revcode_32 0x0010)
    by (unfold is_revcode_32, UINT_MODULUS; lia).
  destruct (accepted_legacy_code_fields
              0x0010 0x100030 initial_world Hc eq_refl eq_refl)
    as [[_ Hproc] [_ [Hrev _]]].
  split; assumption.
Defined.

(** ** Reading a number *)

Section Characters.

Lemma hex_char_plain (ch : ascii) :
  is_hex ch = true ->
  isspace ch = false /\ Ascii.eqb ch "-" = false /\
  Ascii.eqb ch "+" = false /\ Ascii.eqb ch "x" = false /\
  Ascii.eqb ch "X" = false.
Proof.
  destruct ch as [[] [] [] [] [] [] [] []]; vm_compute; intros H;
    first [discriminate H | repeat split].
Qed.

Lemma hex_digit_range (ch : ascii) (d : Z) :
  hex_digit ch = Some d -> 0 <= d < 16.
Proof.
  unfold hex_digit. cbv zeta.
  set (n := Z.of_nat (nat_of_ascii ch)).
  destruct (Z.leb_spec 48 n), (Z.leb_spec n 57), (Z.leb_spec 65 n),
    (Z.leb_spec n 70), (Z.leb_spec 97 n), (Z.leb_spec n 102);
    cbn [andb]; intros Hdigit;
    first [discriminate Hdigit | injection Hdigit as <-; lia].
Qed.

Lemma below_16 (d : Z) :
  0 <= d < 16 ->
  d = 0 \/ d = 1 \/ d = 2 \/ d = 3 \/ d = 4 \/ d = 5 \/ d = 6 \/ d = 7 \/
  d = 8 \/ d = 9 \/ d = 10 \/ d = 11 \/ d = 12 \/ d = 13 \/ d = 14 \/
  d = 15.
Proof. lia. Qed.

Lemma hex_digit_upper (d : Z) :
  0 <= d < 16 -> hex_digit (digit_char d) = Some d.
Proof.
  intros Hd.
  destruct (below_16 d Hd)
    as [-> | [-> | [-> | [-> | [-> | [-> | [-> | [-> | [-> | [-> | [-> |
       [-> | [-> | [-> | [-> | ->]]]]]]]]]]]]]]]; reflexivity.
Qed.

Lemma hex_digit_lower (d : Z) :
  0 <= d < 16 -> hex_digit (lower_hex (digit_char d)) = Some d.
Proof.
  intros Hd.
  destruct (below_16 d Hd)
    as [-> | [-> | [-> | [-> | [-> | [-> | [-> | [-> | [-> | [-> | [-> |
       [-> | [-> | [-> | [-> | ->]]]]]]]]]]]]]]]; reflexivity.
Qed.

End Characters.

Section Numerals.

(** How the digits are written: as [%X] does, or as [%lx] does. *)
Variable f : ascii -> ascii.
Hypothesis f_digit :
  forall d, 0 <= d < 16 -> hex_digit (f (digit_char d)) = Some d.

Lemma string_map_app (s t : string) :
  string_map f (s ++ t) = string_map f s ++ string_map f t.
Proof. induction s as [| ch s IH]; cbn; [reflexivity | now rewrite IH]. Qed.

Lemma string_map_length (s : string) :
  String.length (string_map f s) = String.length s.
Proof. induction s as [| ch s IH]; cbn; [reflexivity | now rewrite IH]. Qed.

Lemma all_hex_app (s t : string) :
  all_hex (s ++ t) = all_hex s && all_hex t.
Proof.
  induction s as [| ch s IH]; cbn; [reflexivity |].
  now rewrite IH, andb_assoc.
Qed.

Lemma mod_16_range (n : Z) : 0 <= n mod 16 < 16.
Proof. apply Z.mod_pos_bound. lia. Qed.

Lemma numeral_all_hex (fuel : nat) (n : Z) :
  all_hex (string_map f (utoa 16 fuel n)) = true.
Proof.
  revert n. induction fuel as [| fuel IH]; intros n; [reflexivity |].
  rewrite utoa_S, string_map_app, all_hex_app.
  apply andb_true_intro. split.
  - destruct (n <? 16); [reflexivity | apply IH].
  - cbn. unfold is_hex. rewrite f_digit by apply mod_16_range. reflexivity.
Qed.

Lemma numeral_not_empty (fuel : nat) (n : Z) :
  string_map f (utoa 16 (S fuel) n) <> EmptyString.
Proof.
  rewrite utoa_S, string_map_app.
  destruct (string_map f (if n <? 16 then EmptyString
                          else utoa 16 fuel (n / 16)));
    discriminate.
Qed.

(** Scanning a numeral gives back the number and the digit count. *)
Lemma scan_digits_numeral (fuel : nat) :
  forall n rest,
    0 <= n < 16 ^ Z.of_nat (S fuel) ->
    scan_digits (string_map f (utoa 16 (S fuel) n) ++ rest) 0 0 =
    scan_digits rest n (String.length (utoa 16 (S fuel) n)).
Proof.
  induction fuel as [| fuel IH]; intros n rest Hn; rewrite utoa_S.
  - change (16 ^ Z.of_nat 1) with 16 in Hn.
    destruct (Z.ltb_spec n 16) as [_ | Hge]; [| lia].
    rewrite Z.mod_small by lia. cbn [append string_map scan_digits].
    rewrite f_digit by lia. cbn [String.length]. f_equal; lia.
  - destruct (Z.ltb_spec n 16) as [Hlt | Hge].
    + rewrite Z.mod_small by lia. cbn [append string_map scan_digits].
      rewrite f_digit by lia. cbn [String.length]. f_equal; lia.
    + rewrite string_map_app, string_app_assoc, IH.
      * cbn [append string_map scan_digits].
        rewrite f_digit by apply mod_16_range.
        rewrite string_length_app. cbn [String.length].
        pose proof (Z.div_mod n 16 ltac:(lia)).
        f_equal; lia.
      * rewrite pow16_S in Hn. split.
        -- apply Z.div_pos; lia.
        -- apply Z.div_lt_upper_bound; lia.
Qed.

End Numerals.

Section StrtoulOnDigits.

Variable long_bits : Z.
Variable a : ascii.
Variables ds rest : string.
Variable n : Z.

Hypothesis a_hex : is_hex a = true.
Hypothesis ds_hex : all_hex ds = true.
Hypothesis rest_stops : stops_number rest = true.
Hypothesis scanned :
  scan_digits (String a ds ++ rest) 0 0 =
  scan_digits rest n (String.length (String a ds)).

Lemma scan_digits_stop (acc : Z) (count : nat) :
  scan_digits rest acc count = (acc, count, rest).
Proof.
  destruct rest as [| ch tail]; [reflexivity |].
  cbn in rest_stops |- *. unfold is_hex in rest_stops.
  destruct (hex_digit ch); [discriminate rest_stops | reflexivity].
Qed.

Lemma has_hex_prefix_digits : has_hex_prefix (String a ds ++ rest) = false.
Proof.
  cbn [append]. destruct ds as [| b ds'].
  - cbn [append]. destruct rest as [| r0 [| r1 tail]]; try reflexivity.
    cbn in rest_stops |- *.
    destruct (Ascii.eqb r0 "x"), (Ascii.eqb r0 "X");
      try (rewrite !andb_false_r in rest_stops; discriminate rest_stops).
    now rewrite andb_false_r.
  - cbn [append]. destruct (ds' ++ rest) as [| c2 tail]; [reflexivity |].
    cbn [has_hex_prefix]. cbn in ds_hex.
    apply andb_prop in ds_hex. destruct ds_hex as [Hb _].
    destruct (hex_char_plain b Hb) as [_ [_ [_ [-> ->]]]].
    now rewrite andb_false_r.
Qed.

Lemma has_hex_prefix_prefixed (p : ascii) :
  p = "x"%char \/ p = "X"%char ->
  has_hex_prefix (String "0" (String p (String a ds ++ rest))) = true.
Proof.
  intros [-> | ->]; cbn [append has_hex_prefix]; now rewrite a_hex.
Qed.

Lemma drop_prefix (c0 c1 : ascii) (s : string) :
  substring 2 (String.length (String c0 (String c1 s)))
            (String c0 (String c1 s)) = s.
Proof. cbn. apply substring_0_all. lia. Qed.

Lemma strtoul_digits :
  strtoul long_bits (String a ds ++ rest) =
  if n >? ULONG_MAX long_bits
  then mkConversion (ULONG_MAX long_bits) (S (String.length ds)) ERANGE
  else mkConversion n (S (String.length ds)) 0.
Proof.
  destruct (hex_char_plain a a_hex) as [Hsp [Hminus [Hplus _]]].
  unfold strtoul. cbv zeta.
  replace (skip_space (String a ds ++ rest)) with (String a ds ++ rest)
    by (cbn; now rewrite Hsp).
  cbn [append]. rewrite Hminus, Hplus. cbn [fst snd].
  change (String a (ds ++ rest)) with (String a ds ++ rest).
  rewrite has_hex_prefix_digits, scanned, scan_digits_stop.
  cbn [fst snd String.length append].
  replace (S (String.length (ds ++ rest)) - String.length rest)%nat
    with (S (String.length ds)) by (rewrite string_length_app; lia).
  reflexivity.
Qed.

Lemma strtoul_prefixed_digits (p : ascii) :
  p = "x"%char \/ p = "X"%char ->
  strtoul long_bits (String "0" (String p (String a ds ++ rest))) =
  if n >? ULONG_MAX long_bits
  then mkConversion (ULONG_MAX long_bits) (S (S (S (String.length ds))))
                    ERANGE
  else mkConversion n (S (S (S (String.length ds)))) 0.
Proof.
  intros Hp. unfold strtoul. cbv zeta.
  cbn [skip_space]. change (isspace "0") with false. cbv iota.
  change (Ascii.eqb "0" "-") with false.
  change (Ascii.eqb "0" "+") with false. cbv iota. cbn [fst snd].
  rewrite (has_hex_prefix_prefixed p Hp), drop_prefix.
  rewrite scanned, scan_digits_stop.
  cbn [fst snd String.length append].
  replace (S (S (S (String.length (ds ++ rest)))) - String.length rest)%nat
    with (S (S (S (String.length ds))))
    by (rewrite string_length_app; lia).
  reflexivity.
Qed.

Lemma strtoul_negative_digits :
  strtoul long_bits (String "-" (String a ds ++ rest)) =
  if n >? ULONG_MAX long_bits
  then mkConversion (ULONG_MAX long_bits) (S (S (String.length ds))) ERANGE
  else mkConversion ((- n) mod 2 ^ long_bits) (S (S (String.length ds))) 0.
Proof.
  unfold strtoul. cbv zeta.
  cbn [skip_space]. change (isspace "-") with false. cbv iota.
  change (Ascii.eqb "-" "-") with true. cbv iota. cbn [fst snd].
  rewrite has_hex_prefix_digits, scanned, scan_digits_stop.
  cbn [fst snd String.length append].
  replace (S (S (String.length (ds ++ rest))) - String.length rest)%nat
    with (S (S (String.length ds)))
    by (rewrite string_length_app; lia).
  reflexivity.
Qed.

End StrtoulOnDigits.

Section StrToRevision.

Variable long_bits : Z.
Hypothesis long_width : long_bits = 32 \/ long_bits = 64.

Lemma ULONG_MAX_bound : 0xFFFFFFFF <= ULONG_MAX long_bits.
Proof. unfold ULONG_MAX. destruct long_width as [-> | ->]; lia. Qed.

Lemma str_to_revision_accepts (input : string) (n : Z) (count : nat)
    (w : world) :
  strtoul long_bits input = mkConversion n (S count) 0 ->
  0 <= n <= 0xFFFFFFFF ->
  str_to_revision long_bits input w = (Returned n, w).
Proof.
  intros Hconv Hn. unfold str_to_revision. cbv zeta. rewrite Hconv.
  cbn [value endptr errno negb orb Nat.eqb].
  change (0 =? ERANGE) with false. change (0 =? 0) with true.
  cbn [negb orb]. cbv iota.
  rewrite (Z.gtb_ltb n).
  destruct (Z.ltb_spec 0xFFFFFFFF n) as [Hbig | _]; [lia |].
  rewrite andb_false_r. unfold ret, to_uint, UINT_MODULUS.
  rewrite Z.mod_small by lia. reflexivity.
Qed.

Lemma str_to_revision_out_of_range (input : string) (count : nat)
    (w : world) :
  strtoul long_bits input =
    mkConversion (ULONG_MAX long_bits) count ERANGE ->
  fst (str_to_revision long_bits input w) = Exited EXIT_FAILURE /\
  stdout (snd (str_to_revision long_bits input w)) = stdout w.
Proof.
  intros Hconv. unfold str_to_revision. cbv zeta. rewrite Hconv.
  cbn [errno]. change (ERANGE =? ERANGE) with true. cbv iota.
  split; reflexivity.
Qed.

Lemma str_to_revision_too_wide (input : string) (n : Z) (count : nat)
    (w : world) :
  strtoul long_bits input = mkConversion n (S count) 0 ->
  0xFFFFFFFF < n <= ULONG_MAX long_bits ->
  fst (str_to_revision long_bits input w) = Exited EXIT_FAILURE /\
  stdout (snd (str_to_revision long_bits input w)) = stdout w.
Proof.
  intros Hconv Hn. unfold str_to_revision. cbv zeta. rewrite Hconv.
  cbn [value endptr errno negb orb Nat.eqb].
  change (0 =? ERANGE) with false. change (0 =? 0) with true.
  cbn [negb orb]. cbv iota.
  assert (Hlong : long_bits = 64).
  { destruct long_width as [-> | ->]; [| reflexivity].
    unfold ULONG_MAX in Hn. lia. }
  rewrite Hlong. change (64 >? 32) with true.
  rewrite Z.gtb_ltb.
  destruct (Z.ltb_spec 0xFFFFFFFF n) as [_ | Hsmall]; [| lia].
  split; reflexivity.
Qed.

Lemma str_to_revision_no_number (input : string) (w : world) :
  starts_no_number input = true ->
  str_to_revision long_bits input w = CouldNotParse input w.
Proof.
  intros Hstart.
  assert (Hconv : strtoul long_bits input = mkConversion 0 0 0).
  { destruct input as [| ch tail]; [reflexivity |].
    cbn in Hstart.
    destruct (isspace ch) eqn:Hsp; [discriminate Hstart |].
    destruct (Ascii.eqb ch "-") eqn:Hminus; [discriminate Hstart |].
    destruct (Ascii.eqb ch "+") eqn:Hplus; [discriminate Hstart |].
    destruct (is_hex ch) eqn:Hhex; [discriminate Hstart |].
    unfold strtoul. cbv zeta. cbn [skip_space]. rewrite Hsp, Hminus, Hplus.
    cbn [fst snd].
    assert (Hprefix : has_hex_prefix (String ch tail) = false).
    { destruct tail as [| c1 [| c2 tail]]; try reflexivity.
      cbn [has_hex_prefix].
      destruct (Ascii.eqb_spec ch "0") as [-> | _]; [| reflexivity].
      discriminate Hhex. }
    rewrite Hprefix. cbn [scan_digits]. unfold is_hex in Hhex.
    destruct (hex_digit ch); [discriminate Hhex | reflexivity]. }
  unfold str_to_revision. cbv zeta. rewrite Hconv. reflexivity.
Qed.

End StrToRevision.

Section NumeralsRead.

Variable f : ascii -> ascii.
Hypothesis f_digit :
  forall d, 0 <= d < 16 -> hex_digit (f (digit_char d)) = Some d.

Variable long_bits : Z.
Variable n : Z.
Variable rest : string.
Hypothesis n_range : 0 <= n < 16 ^ Z.of_nat DIGITS.
Hypothesis rest_stops : stops_number rest = true.

Let numeral : string := string_map f (utoa 16 DIGITS n).

Lemma strtoul_numeral :
  exists count,
    strtoul long_bits (numeral ++ rest) =
      (if n >? ULONG_MAX long_bits
       then mkConversion (ULONG_MAX long_bits) (S count) ERANGE
       else mkConversion n (S count) 0) /\
    (forall p, p = "x"%char \/ p = "X"%char ->
       strtoul long_bits (String "0" (String p (numeral ++ rest))) =
         (if n >? ULONG_MAX long_bits
          then mkConversion (ULONG_MAX long_bits) (S (S (S count))) ERANGE
          else mkConversion n (S (S (S count))) 0)) /\
    strtoul long_bits (String "-" (numeral ++ rest)) =
      (if n >? ULONG_MAX long_bits
       then mkConversion (ULONG_MAX long_bits) (S (S count)) ERANGE
       else mkConversion ((- n) mod 2 ^ long_bits) (S (S count)) 0).
Proof.
  pose proof (numeral_all_hex f f_digit DIGITS n) as Hall.
  pose proof (numeral_not_empty f 31 n) as Hne.
  pose proof (scan_digits_numeral f f_digit 31 n rest n_range) as Hscan.
  rewrite <- (string_map_length f) in Hscan.
  change (S 31) with DIGITS in Hne, Hscan.
  fold numeral in Hall, Hne, Hscan.
  destruct numeral as [| a ds]; [contradiction |].
  cbn [all_hex] in Hall. apply andb_prop in Hall. destruct Hall as [Ha Hds].
  exists (String.length ds).
  split; [| split].
  - now apply strtoul_digits.
  - intros p Hp. now apply strtoul_prefixed_digits.
  - now apply strtoul_negative_digits.
Qed.

End NumeralsRead.

Section ReadingBack.

Lemma string_map_id (s : string) : string_map (fun ch => ch) s = s.
Proof. induction s as [| ch s IH]; cbn; [reflexivity | now rewrite IH]. Qed.

Lemma fmt_X_numeral (c : Z) :
  is_revcode_32 c ->
  fmt_X c = string_map (fun ch => ch) (utoa 16 DIGITS c).
Proof.
  intros Hc. unfold fmt_X.
  now rewrite string_map_id, to_uint_small by assumption.
Qed.

Lemma fmt_lx_numeral (long_bits c : Z) :
  long_bits = 32 \/ long_bits = 64 ->
  0 <= c <= ULONG_MAX long_bits ->
  fmt_lx long_bits c = string_map lower_hex (utoa 16 DIGITS c).
Proof.
  intros Hlong Hc. unfold fmt_lx. unfold ULONG_MAX in Hc.
  rewrite Z.mod_small by lia. reflexivity.
Qed.

Lemma revcode_fits_digits (c : Z) :
  is_revcode_32 c -> 0 <= c < 16 ^ Z.of_nat DIGITS.
Proof.
  unfold is_revcode_32, UINT_MODULUS. intros Hc.
  assert (2 ^ 32 <= 16 ^ Z.of_nat DIGITS) by (vm_compute; discriminate).
  lia.
Qed.

(** A numeral of a revision code, in either case and with or without
    prefix, is read as that code. *)
Lemma str_to_revision_numeral (f : ascii -> ascii) (long_bits c : Z)
    (rest lead : string) (w : world) :
  (forall d, 0 <= d < 16 -> hex_digit (f (digit_char d)) = Some d) ->
  long_bits = 32 \/ long_bits = 64 ->
  is_revcode_32 c ->
  stops_number rest = true ->
  lead = EmptyString \/ lead = "0x" \/ lead = "0X" ->
  str_to_revision long_bits
    (lead ++ string_map f (utoa 16 DIGITS c) ++ rest) w = (Returned c, w).
Proof.
  intros Hf Hlong Hc Hrest Hlead.
  destruct (strtoul_numeral f Hf long_bits c rest
              (revcode_fits_digits c Hc) Hrest)
    as [count [Hplain [Hprefixed _]]].
  pose proof (ULONG_MAX_bound long_bits Hlong) as Hmax.
  assert (Hin : 0 <= c <= 0xFFFFFFFF)
    by (unfold is_revcode_32, UINT_MODULUS in Hc; lia).
  assert (Hfits : (c >? ULONG_MAX long_bits) = false).
  { rewrite Z.gtb_ltb. destruct (Z.ltb_spec (ULONG_MAX long_bits) c); lia. }
  rewrite Hfits in Hplain, Hprefixed.
  destruct Hlead as [-> | [-> | ->]]; cbn [append].
  - now apply (str_to_revision_accepts long_bits _ c count).
  - apply (str_to_revision_accepts long_bits _ c (S (S count)));
      [apply Hprefixed; now left | assumption].
  - apply (str_to_revision_accepts long_bits _ c (S (S count)));
      [apply Hprefixed; now right | assumption].
Qed.

End ReadingBack.

(** X6.  What the renderers print for a code is read back as that
    code: the digits of [%X] (as in the header line and in the JSON
    field), or the lower-case digits of [%lx], with or without the
    prefix "0x" or "0X", and followed by nothing or by text that
    cannot continue a number, are parsed to the code itself, with a
    [long] of 32 or of 64 bits and without any output. *)
Theorem str_to_revision_reads_back (long_bits c : Z)
    (lead numeral rest : string) (w : world) :
  long_bits = 32 \/ long_bits = 64 ->
  is_revcode_32 c ->
  numeral = fmt_X c \/ numeral = fmt_lx long_bits c ->
  lead = EmptyString \/ lead = "0x" \/ lead = "0X" ->
  stops_number rest = true ->
  str_to_revision long_bits (lead ++ numeral ++ rest) w = (Returned c, w).
Proof.
  intros Hlong Hc Hnumeral Hlead Hrest.
  destruct Hnumeral as [-> | ->].
  - rewrite fmt_X_numeral by assumption.
    now apply str_to_revision_numeral; [apply hex_digit_upper | ..].
  - rewrite fmt_lx_numeral; [| assumption |].
    + now apply str_to_revision_numeral; [apply hex_digit_lower | ..].
    + pose proof (ULONG_MAX_bound long_bits Hlong).
      unfold is_revcode_32, UINT_MODULUS in Hc. lia.
Qed.

(** The code 0xA02082 written as "0xA02082" and as "a02082", the
    latter followed by a line end. *)
Lemma str_to_revision_reads_back_witness :
  str_to_revision 64 "0xA02082" initial_world =
    (Returned 0xA02082, initial_world) /\
  str_to_revision 32 ("a02082" ++ nl) initial_world =
    (Returned 0xA02082, initial_world).
Proof.
  assert (Hc : is_revcode_32 0xA02082)
    by (unfold is_revcode_32, UINT_MODULUS; lia).
  split.
  - apply (str_to_revision_reads_back 64 0xA02082 "0x" "A02082"
             EmptyString initial_world);
      [now right | exact Hc | now left | now right; left | reflexivity].
  - apply (str_to_revision_reads_back 32 0xA02082 EmptyString "a02082"
             nl initial_world);
      [now left | exact Hc | now right | now left | reflexivity].
Defined.

(** X7.  Text in which no number starts (empty, or beginning with a
    character that is neither white space, a sign nor a digit of base
    16) is rejected: the message naming the text goes to the error
    stream, nothing is printed, and the program exits with failure,
    whatever the width of [long]. *)
Theorem str_to_revision_rejects_text (long_bits : Z) (input : string)
    (w : world) :
  starts_no_number input = true ->
  str_to_revision long_bits input w =
  (Exited EXIT_FAILURE,
   mkWorld (stdout w)
           (stderr w ++ "Could not parse revision code " ++ dquote ++
            input ++ dquote ++ nl)).
Proof. apply str_to_revision_no_number. Qed.

Lemma str_to_revision_rejects_text_witness :
  str_to_revision 64 "zz" initial_world =
  (Exited EXIT_FAILURE,
   mkWorld EmptyString
           ("Could not parse revision code " ++ dquote ++ "zz" ++ dquote ++
            nl)).
Proof.
  apply (str_to_revision_rejects_text 64 "zz" initial_world). reflexivity.
Defined.

(** X8.  A numeral of more than 32 bits never yields a code: with a
    [long] of 32 bits the conversion is out of range, with a [long] of
    64 bits it is out of range or caught by the comparison with
    0xFFFFFFFF.  Either way the program exits with failure and prints
    nothing on the standard output. *)
Theorem str_to_revision_rejects_wide (long_bits n : Z)
    (lead numeral rest : string) (w : world) :
  long_bits = 32 \/ long_bits = 64 ->
  0xFFFFFFFF < n < 16 ^ Z.of_nat DIGITS ->
  numeral = utoa 16 DIGITS n \/
  numeral = string_map lower_hex (utoa 16 DIGITS n) ->
  lead = EmptyString \/ lead = "0x" \/ lead = "0X" ->
  stops_number rest = true ->
  fst (str_to_revision long_bits (lead ++ numeral ++ rest) w) =
    Exited EXIT_FAILURE /\
  stdout (snd (str_to_revision long_bits (lead ++ numeral ++ rest) w)) =
    stdout w.
Proof.
  intros Hlong Hn Hnumeral Hlead Hrest.
  assert (Hcases :
            exists f, (forall d, 0 <= d < 16 ->
                                 hex_digit (f (digit_char d)) = Some d) /\
                      numeral = string_map f (utoa 16 DIGITS n)).
  { destruct Hnumeral as [-> | ->].
    - exists (fun ch => ch). split; [apply hex_digit_upper |].
      now rewrite string_map_id.
    - exists lower_hex. split; [apply hex_digit_lower | reflexivity]. }
  destruct Hcases as [f [Hf ->]].
  destruct (strtoul_numeral f Hf long_bits n rest ltac:(lia) Hrest)
    as [count [Hplain [Hprefixed _]]].
  assert (Hconv :
            exists k,
              strtoul long_bits
                (lead ++ string_map f (utoa 16 DIGITS n) ++ rest) =
              (if n >? ULONG_MAX long_bits
               then mkConversion (ULONG_MAX long_bits) (S k) ERANGE
               else mkConversion n (S k) 0)).
  { destruct Hlead as [-> | [-> | ->]]; cbn [append].
    - now exists count.
    - exists (S (S count)). apply Hprefixed. now left.
    - exists (S (S count)). apply Hprefixed. now right. }
  destruct Hconv as [k Hconv].
  rewrite Z.gtb_ltb in Hconv.
  destruct (Z.ltb_spec (ULONG_MAX long_bits) n) as [Hover | Hfits].
  - now apply (str_to_revision_out_of_range long_bits _ (S k)).
  - apply (str_to_revision_too_wide long_bits Hlong _ n k); [assumption |].
    lia.
Qed.

(** The nine-digit numeral "123456789" with either width of [long]. *)
Lemma str_to_revision_rejects_wide_witness :
  fst (str_to_revision 32 "123456789" initial_world) = Exited EXIT_FAILURE /\
  fst (str_to_revision 64 "0x123456789" initial_world) = Exited EXIT_FAILURE.
Proof.
  assert (Hn : 0xFFFFFFFF < 0x123456789 < 16 ^ Z.of_nat DIGITS)
    by (vm_compute; split; reflexivity).
  split.
  - apply (str_to_revision_rejects_wide 32 0x123456789 EmptyString
             "123456789" EmptyString initial_world);
      [now left | exact Hn | now left | now left | reflexivity].
  - apply (str_to_revision_rejects_wide 64 0x123456789 "0x"
             "123456789" EmptyString initial_world);
      [now right | exact Hn | now left | now right; left | reflexivity].
Defined.

(** X9.  A minus sign is accepted in front of the digits and negates
    in [unsigned long].  With a [long] of 32 bits the numeral of a code
    [c > 0] behind a minus sign is read as [2^32 - c]; with a [long] of
    64 bits the negated value exceeds 32 bits and the program exits
    with failure. *)
Theorem str_to_revision_minus_sign (c : Z) (rest : string) (w : world) :
  is_revcode_32 c -> 0 < c ->
  stops_number rest = true ->
  str_to_revision 32 ("-" ++ fmt_X c ++ rest) w =
    (Returned (2 ^ 32 - c), w) /\
  fst (str_to_revision 64 ("-" ++ fmt_X c ++ rest) w) = Exited EXIT_FAILURE.
Proof.
  intros Hc Hpos Hrest.
  rewrite fmt_X_numeral by assumption.
  assert (Hin : 0 < c <= 0xFFFFFFFF)
    by (unfold is_revcode_32, UINT_MODULUS in Hc; lia).
  split.
  - destruct (strtoul_numeral (fun ch => ch) hex_digit_upper 32 c rest
                (revcode_fits_digits c Hc) Hrest)
      as [count [_ [_ Hminus]]].
    rewrite Z.gtb_ltb in Hminus. unfold ULONG_MAX in Hminus.
    destruct (Z.ltb_spec (2 ^ 32 - 1) c) as [Hover | _]; [lia |].
    assert (Hneg : (- c) mod 2 ^ 32 = 2 ^ 32 - c).
    { symmetry. apply (Z.mod_unique_pos (- c) (2 ^ 32) (-1)); lia. }
    rewrite Hneg in Hminus. cbn [append].
    apply (str_to_revision_accepts 32 _ (2 ^ 32 - c) (S count));
      [exact Hminus | lia].
  - destruct (strtoul_numeral (fun ch => ch) hex_digit_upper 64 c rest
                (revcode_fits_digits c Hc) Hrest)
      as [count [_ [_ Hminus]]].
    rewrite Z.gtb_ltb in Hminus. unfold ULONG_MAX in Hminus.
    destruct (Z.ltb_spec (2 ^ 64 - 1) c) as [Hover | _]; [lia |].
    assert (Hneg : (- c) mod 2 ^ 64 = 2 ^ 64 - c).
    { symmetry. apply (Z.mod_unique_pos (- c) (2 ^ 64) (-1)); lia. }
    rewrite Hneg in Hminus. cbn [append].
    apply (str_to_revision_too_wide 64 (or_intror eq_refl) _
             (2 ^ 64 - c) (S count) w);
      [exact Hminus | unfold ULONG_MAX; lia].
Qed.

Lemma str_to_revision_minus_sign_witness :
  str_to_revision 32 "-1" initial_world =
    (Returned 0xFFFFFFFF, initial_world) /\
  fst (str_to_revision 64 "-1" initial_world) = Exited EXIT_FAILURE.
Proof.
  apply (str_to_revision_minus_sign 1 EmptyString initial_world).
  - unfold is_revcode_32, UINT_MODULUS. lia.
  - lia.
  - reflexivity.
Defined.

(** ** The value returned is the value converted *)

Section NoTruncation.

Lemma scan_digits_nonneg (s : string) :
  forall acc count, 0 <= acc -> 0 <= fst (fst (scan_digits s acc count)).
Proof.
  induction s as [| ch s IH]; intros acc count Hacc; cbn [scan_digits];
    [assumption |].
  destruct (hex_digit ch) as [d |] eqn:Hd; [| assumption].
  apply IH. pose proof (hex_digit_range ch d Hd). lia.
Qed.

Lemma strtoul_value_range (long_bits : Z) (input : string) :
  0 < long_bits ->
  0 <= value (strtoul long_bits input) <= ULONG_MAX long_bits.
Proof.
  intros Hlong.
  assert (Hpow : 0 < 2 ^ long_bits) by (apply Z.pow_pos_nonneg; lia).
  unfold strtoul. cbv zeta.
  match goal with
  | |- context [scan_digits ?s 0 0] =>
      pose proof (scan_digits_nonneg s 0 0 (Z.le_refl 0)) as Hnonneg;
      destruct (scan_digits s 0 0) as [[magnitude count] rest]
  end.
  cbn [fst snd] in *. unfold ULONG_MAX in *.
  destruct count as [| count]; cbn [value]; [lia |].
  rewrite Z.gtb_ltb.
  destruct (Z.ltb_spec (2 ^ long_bits - 1) magnitude) as [Hover | Hfits];
    cbn [value]; [lia |].
  match goal with
  | |- context [if ?negative then _ else _] => destruct negative
  end; [| lia].
  pose proof (Z.mod_pos_bound (- magnitude) (2 ^ long_bits) Hpow). lia.
Qed.

End NoTruncation.

(** X10.  When [str_to_revision] returns, it has printed nothing, the
    conversion consumed at least one character without range error,
    and the code returned is the converted value itself, which fits in
    32 bits: the final cast to [revcode_32] never drops a bit. *)
Theorem str_to_revision_no_truncation (long_bits : Z) (input : string)
    (v : Z) (w w' : world) :
  long_bits = 32 \/ long_bits = 64 ->
  str_to_revision long_bits input w = (Returned v, w') ->
  w' = w /\
  v = value (strtoul long_bits input) /\
  is_revcode_32 v /\
  (0 < endptr (strtoul long_bits input))%nat /\
  errno (strtoul long_bits input) = 0.
Proof.
  intros Hlong. unfold str_to_revision. cbv zeta.
  pose proof (strtoul_value_range long_bits input
                ltac:(destruct Hlong; lia)) as Hrange.
  destruct (strtoul long_bits input) as [n consumed err].
  cbn [value endptr errno] in *.
  destruct (Z.eqb_spec err ERANGE) as [_ | _]; [discriminate |].
  destruct (Z.eqb_spec err 0) as [-> | _]; cbn [negb orb];
    [| discriminate].
  destruct consumed as [| consumed]; cbn [Nat.eqb]; [discriminate |].
  rewrite (Z.gtb_ltb n).
  assert (Hfit : ((long_bits >? 32) && (0xFFFFFFFF <? n)) = false ->
                 0 <= n <= 0xFFFFFFFF).
  { destruct Hlong as [-> | ->]; unfold ULONG_MAX in Hrange.
    - intros _. lia.
    - change (64 >? 32) with true. cbn [andb].
      destruct (Z.ltb_spec 0xFFFFFFFF n); [discriminate | lia]. }
  destruct ((long_bits >? 32) && (0xFFFFFFFF <? n)); [discriminate |].
  specialize (Hfit eq_refl).
  unfold ret, to_uint, UINT_MODULUS. rewrite Z.mod_small by lia.
  intros Hret. injection Hret as <- <-.
  repeat split; try lia.
  unfold UINT_MODULUS. lia.
Qed.

Lemma str_to_revision_no_truncation_witness :
  0xA02082 = value (strtoul 64 "a02082") /\ is_revcode_32 0xA02082.
Proof.
  destruct (str_to_revision_no_truncation
              64 "a02082" 0xA02082 initial_world initial_world
              (or_intror eq_refl) eq_refl)
    as [_ [Hvalue [Hrange _]]].
  split; assumption.
Defined.

(** ** Processing several codes *)

Section ReturnedValues.

Context {A B : Type}.

Lemma returns_only_bind (P : B -> Prop) (m : prog A) (k : A -> prog B) :
  (forall a, returns_only P (k a)) -> returns_only P (bind m k).
Proof.
  intros Hk w b w'. unfold bind.
  destruct (m w) as [[a | status |] w1]; try discriminate.
  apply Hk.
Qed.

Lemma returns_only_ret (P : A -> Prop) (a : A) :
  P a -> returns_only P (ret a).
Proof. intros Ha w b w' Hret. injection Hret as <- _. exact Ha. Qed.

Lemma bind_ret_r (m : prog A) (w : world) : bind m ret w = m w.
Proof. unfold bind, ret. now destruct (m w) as [[a | status |] w1]. Qed.

End ReturnedValues.

Lemma print_revision_text_status (c : Z) :
  returns_only (fun status => status = EXIT_SUCCESS) (print_revision_text c).
Proof.
  unfold print_revision_text.
  repeat (apply returns_only_bind; intros ?).
  now apply returns_only_ret.
Qed.

Lemma print_revision_json_status (c : Z) :
  returns_only (fun status => status = EXIT_SUCCESS) (print_revision_json c).
Proof.
  unfold print_revision_json. cbv zeta.
  repeat (apply returns_only_bind; intros ?).
  now apply returns_only_ret.
Qed.

Section ArgumentLoop.

Variable long_bits : Z.
Variable print_json : bool.

Lemma process_rev_codes_from_stopped (codes : list string) (status : Z)
    (w : world) :
  status <> 0 ->
  process_rev_codes_from long_bits codes print_json status w =
  (Returned status, w).
Proof.
  intros Hne. destruct codes as [| code remaining]; [reflexivity |].
  cbn [process_rev_codes_from].
  destruct (Z.eqb_spec status 0); [contradiction | reflexivity].
Qed.

Lemma process_rev_codes_from_app (first later : list string) :
  forall status w,
    process_rev_codes_from long_bits (first ++ later) print_json status w =
    match process_rev_codes_from long_bits first print_json status w with
    | (Returned status', w1) =>
        process_rev_codes_from long_bits later print_json status' w1
    | other => other
    end.
Proof.
  induction first as [| code remaining IH]; intros status w;
    [reflexivity |].
  cbn [List.app process_rev_codes_from].
  destruct (Z.eqb_spec status 0) as [-> | Hne].
  - cbv zeta. unfold bind.
    destruct (str_to_revision long_bits (strncpy code (32 - 1)) w)
      as [[revision_code | failure |] w1]; try reflexivity.
    destruct ((if print_json then print_revision_json revision_code
               else print_revision_text revision_code) w1)
      as [[status' | failure |] w2]; try reflexivity.
    apply IH.
  - unfold ret. symmetry. now apply process_rev_codes_from_stopped.
Qed.

Lemma process_rev_codes_from_status (codes : list string) :
  returns_only (fun status => status = EXIT_SUCCESS)
               (process_rev_codes_from long_bits codes print_json
                                       EXIT_SUCCESS).
Proof.
  induction codes as [| code remaining IH].
  - now apply returns_only_ret.
  - cbn [process_rev_codes_from]. change (EXIT_SUCCESS =? 0) with true.
    cbv iota zeta.
    apply returns_only_bind. intros revision_code.
    intros w status w'. unfold bind.
    destruct ((if print_json then print_revision_json revision_code
               else print_revision_text revision_code) w)
      as [[status' | failure |] w1] eqn:Hrender; try discriminate.
    assert (status' = EXIT_SUCCESS) as ->.
    { destruct print_json.
      - exact (print_revision_json_status revision_code w _ _ Hrender).
      - exact (print_revision_text_status revision_code w _ _ Hrender). }
    apply IH.
Qed.

End ArgumentLoop.

(** X11.  Codes are processed in order and the first fatal error ends
    the run.  When the codes [first] are processed to the end, the
    status is [EXIT_SUCCESS] and processing [first ++ later] continues
    with [later] from the output reached; when processing [first]
    exits or is undefined, [first ++ later] ends in the same way with
    the same output, and no code of [later] is looked at. *)
Theorem process_rev_codes_in_order (long_bits : Z) (print_json : bool)
    (first later : list string) (w : world) :
  match process_rev_codes long_bits first print_json w with
  | (Returned status, w1) =>
      status = EXIT_SUCCESS /\
      process_rev_codes long_bits (first ++ later) print_json w =
      process_rev_codes long_bits later print_json w1
  | (Exited status, w1) =>
      process_rev_codes long_bits (first ++ later) print_json w =
      (Exited status, w1)
  | (Undefined, w1) =>
      process_rev_codes long_bits (first ++ later) print_json w =
      (Undefined, w1)
  end.
Proof.
  unfold process_rev_codes.
  rewrite (process_rev_codes_from_app long_bits print_json first later).
  destruct (process_rev_codes_from long_bits first print_json
                                   EXIT_SUCCESS w)
    as [[status | failure |] w1] eqn:Hfirst; try reflexivity.
  assert (status = EXIT_SUCCESS) as ->
    by exact (process_rev_codes_from_status long_bits print_json first
                                            w _ _ Hfirst).
  split; reflexivity.
Qed.

Section OneArgument.

Lemma utoa_hex_length (fuel : nat) :
  forall (k : nat) n,
    0 <= n < 16 ^ Z.of_nat (S k) ->
    (String.length (utoa 16 (S fuel) n) <= S k)%nat.
Proof.
  induction fuel as [| fuel IH]; intros k n Hn; rewrite utoa_S;
    rewrite string_length_app; cbn [String.length];
    destruct (Z.ltb_spec n 16) as [Hlt | Hge]; cbn [String.length];
    try lia.
  { cbn [utoa String.length]. lia. }
  destruct k as [| k].
  - change (16 ^ Z.of_nat 1) with 16 in Hn. lia.
  - assert (Hq : 0 <= n / 16 < 16 ^ Z.of_nat (S k)).
    { rewrite pow16_S in Hn. split.
      - apply Z.div_pos; lia.
      - apply Z.div_lt_upper_bound; lia. }
    specialize (IH k (n / 16) Hq). lia.
Qed.

Lemma revcode_numeral_length (f : ascii -> ascii) (c : Z) :
  is_revcode_32 c ->
  (String.length (string_map f (utoa 16 DIGITS c)) <= 8)%nat.
Proof.
  intros Hc. rewrite string_map_length.
  apply (utoa_hex_length 31 7).
  unfold is_revcode_32, UINT_MODULUS in Hc.
  change (16 ^ Z.of_nat 8) with (2 ^ 32). exact Hc.
Qed.

Lemma process_one_code (long_bits : Z) (print_json : bool) (code : string)
    (c : Z) (w : world) :
  (String.length code <= 31)%nat ->
  str_to_revision long_bits code w = (Returned c, w) ->
  process_rev_codes long_bits [code] print_json w =
  (if print_json then print_revision_json c else print_revision_text c) w.
Proof.
  intros Hlen Hparse. unfold process_rev_codes.
  cbn [process_rev_codes_from]. change (EXIT_SUCCESS =? 0) with true.
  cbv iota zeta. unfold strncpy.
  rewrite substring_0_all by (change (Z.to_nat (32 - 1)) with 31%nat; lia).
  unfold bind at 1. rewrite Hparse.
  apply bind_ret_r.
Qed.

End OneArgument.

(** X12.  An argument made of the digits the renderers print for a
    code ([%X], or lower case as [%lx]), with or without the prefix
    "0x" or "0X", is decoded as that code: [process_rev_codes] on this
    single argument does exactly what the selected renderer does on
    the code. *)
Theorem process_rev_codes_decodes_numeral (long_bits c : Z)
    (print_json : bool) (lead numeral : string) (w : world) :
  long_bits = 32 \/ long_bits = 64 ->
  is_revcode_32 c ->
  numeral = fmt_X c \/ numeral = fmt_lx long_bits c ->
  lead = EmptyString \/ lead = "0x" \/ lead = "0X" ->
  process_rev_codes long_bits [lead ++ numeral] print_json w =
  (if print_json then print_revision_json c else print_revision_text c) w.
Proof.
  intros Hlong Hc Hnumeral Hlead.
  assert (Hshape :
            exists f,
              (forall d, 0 <= d < 16 ->
                         hex_digit (f (digit_char d)) = Some d) /\
              numeral = string_map f (utoa 16 DIGITS c)).
  { destruct Hnumeral as [-> | ->].
    - exists (fun ch => ch). split; [apply hex_digit_upper |].
      now apply fmt_X_numeral.
    - exists lower_hex. split; [apply hex_digit_lower |].
      apply fmt_lx_numeral; [assumption |].
      pose proof (ULONG_MAX_bound long_bits Hlong).
      unfold is_revcode_32, UINT_MODULUS in Hc. lia. }
  destruct Hshape as [f [Hf ->]].
  apply process_one_code.
  - pose proof (revcode_numeral_length f c Hc) as Hlen.
    rewrite string_length_app.
    destruct Hlead as [-> | [-> | ->]]; cbn [String.length]; lia.
  - pose proof (str_to_revision_numeral f long_bits c EmptyString lead w
                  Hf Hlong Hc eq_refl Hlead) as Hparse.
    now rewrite string_app_nil_r in Hparse.
Qed.

Lemma process_rev_codes_decodes_numeral_witness :
  process_rev_codes 32 ["0xA02082"] false initial_world =
  print_revision_text 0xA02082 initial_world.
Proof.
  apply (process_rev_codes_decodes_numeral
           32 0xA02082 false "0x" "A02082" initial_world).
  - now left.
  - unfold is_revcode_32, UINT_MODULUS. lia.
  - now left.
  - now right; left.
Defined.

(** ** The code of the host *)

Section HostFile.

Lemma hex_char_visible (ch : ascii) :
  is_hex ch = true ->
  Ascii.eqb ch "010" = false /\ Ascii.eqb ch zero = false.
Proof.
  destruct ch as [[] [] [] [] [] [] [] []]; vm_compute; intros H;
    first [discriminate H | split; reflexivity].
Qed.

Lemma fgets_lines_line (l rest : string) (full : nat) :
  forall room,
    no_newline l = true -> (String.length l < room)%nat ->
    fgets_lines room full (l ++ nl ++ rest) =
    (l ++ nl) :: fgets_lines full full rest.
Proof.
  induction l as [| ch l IH]; intros room Hline Hroom; [reflexivity |].
  cbn [no_newline] in Hline. apply andb_prop in Hline.
  destruct Hline as [Hch Hline]. apply negb_true_iff in Hch.
  cbn [String.length] in Hroom.
  cbn [append fgets_lines]. rewrite Hch. cbn [orb].
  destruct (Nat.leb_spec room 1) as [Hsmall | _]; [lia |].
  rewrite IH by (assumption || lia). reflexivity.
Qed.

Lemma sscanf_other_line (width : nat) (l : string) :
  starts_with_R l = false ->
  sscanf_revision width (c_str (l ++ nl)) = None.
Proof.
  intros Hstart. destruct l as [| ch l]; [reflexivity |].
  cbn [starts_with_R] in Hstart. cbn [append c_str].
  destruct (Ascii.eqb ch zero); [reflexivity |].
  unfold sscanf_revision. cbn [match_literal].
  destruct (Ascii.eqb ch "R"); [discriminate Hstart | reflexivity].
Qed.

Lemma first_revision_skips (width : nat) (before : list string)
    (rest : string) :
  Forall (fun l => other_line l = true) before ->
  first_revision width
    (fgets_lines (LINE_SIZE - 1) (LINE_SIZE - 1)
                 (text_of_lines before ++ rest)) =
  first_revision width
    (fgets_lines (LINE_SIZE - 1) (LINE_SIZE - 1) rest).
Proof.
  induction 1 as [| l later Hl Hlater IH]; [reflexivity |].
  unfold other_line in Hl. apply andb_prop in Hl. destruct Hl as [Hl HR].
  apply andb_prop in Hl. destruct Hl as [Hlen Hline].
  apply Nat.leb_le in Hlen. apply negb_true_iff in HR.
  cbn [text_of_lines]. rewrite !string_app_assoc.
  rewrite fgets_lines_line
    by (assumption || (change (LINE_SIZE - 1)%nat with 255%nat; lia)).
  cbn [first_revision]. rewrite sscanf_other_line by assumption.
  exact IH.
Qed.

Lemma hex_no_newline (s : string) :
  all_hex s = true -> no_newline s = true.
Proof.
  induction s as [| ch s IH]; [reflexivity |].
  cbn [all_hex no_newline]. intros Hs. apply andb_prop in Hs.
  destruct Hs as [Hch Hs]. destruct (hex_char_visible ch Hch) as [-> _].
  now apply IH.
Qed.

Lemma c_str_hex (s rest : string) :
  all_hex s = true -> c_str (s ++ rest) = s ++ c_str rest.
Proof.
  induction s as [| ch s IH]; [reflexivity |].
  cbn [all_hex append c_str]. intros Hs. apply andb_prop in Hs.
  destruct Hs as [Hch Hs]. destruct (hex_char_visible ch Hch) as [_ ->].
  now rewrite IH.
Qed.

Lemma scan_word_hex (s rest : string) :
  forall width,
    all_hex s = true -> (String.length s <= width)%nat ->
    scan_word width (s ++ nl ++ rest) = s.
Proof.
  induction s as [| ch s IH]; intros width Hs Hlen.
  - destruct width; reflexivity.
  - cbn [all_hex] in Hs. apply andb_prop in Hs. destruct Hs as [Hch Hs].
    destruct (hex_char_plain ch Hch) as [Hsp _].
    cbn [String.length] in Hlen.
    destruct width as [| width]; [lia |].
    cbn [append scan_word]. rewrite Hsp, IH by (assumption || lia).
    reflexivity.
Qed.

Lemma match_literal_app (literal rest : string) :
  match_literal literal (literal ++ rest) = Some rest.
Proof.
  induction literal as [| ch literal IH]; [reflexivity |].
  cbn [append match_literal]. now rewrite Ascii.eqb_refl.
Qed.

Lemma skip_space_space (ch : ascii) (rest : string) :
  isspace ch = true -> skip_space (String ch rest) = skip_space rest.
Proof. intros Hsp. cbn [skip_space]. now rewrite Hsp. Qed.

Lemma skip_space_hex (s rest : string) :
  all_hex s = true -> s <> EmptyString -> skip_space (s ++ rest) = s ++ rest.
Proof.
  intros Hs Hne. destruct s as [| ch s]; [contradiction |].
  cbn [all_hex] in Hs. apply andb_prop in Hs. destruct Hs as [Hch _].
  destruct (hex_char_plain ch Hch) as [Hsp _].
  cbn [append skip_space]. now rewrite Hsp.
Qed.

(** The line of the kernel: the name, a tab, a colon, a space, the
    digits. *)
Lemma sscanf_revision_line (s : string) :
  all_hex s = true -> s <> EmptyString -> (String.length s <= 31)%nat ->
  sscanf_revision 31 (c_str ("Revision" ++ tab ++ ": " ++ s ++ nl)) = Some s.
Proof.
  intros Hs Hne Hlen.
  assert (Hc : c_str ("Revision" ++ tab ++ ": " ++ s ++ nl) =
               "Revision" ++
               String "009" (":" ++ String " " (s ++ nl ++ EmptyString))).
  { cbn [append c_str tab]. repeat f_equal. cbn.
    rewrite c_str_hex by assumption. reflexivity. }
  rewrite Hc. unfold sscanf_revision.
  rewrite match_literal_app, skip_space_space by reflexivity.
  replace (skip_space (":" ++ String " " (s ++ nl ++ EmptyString)))
    with (":" ++ String " " (s ++ nl ++ EmptyString)) by reflexivity.
  rewrite match_literal_app, skip_space_space by reflexivity.
  rewrite skip_space_hex, scan_word_hex by assumption.
  destruct s; [contradiction | reflexivity].
Qed.

End HostFile.

Section HostRevision.

Variable long_bits : Z.
Hypothesis long_width : long_bits = 32 \/ long_bits = 64.
Variable c : Z.
Hypothesis c_range : is_revcode_32 c.
Variable numeral : string.
Hypothesis numeral_digits : numeral = fmt_X c \/ numeral = fmt_lx long_bits c.

(** The digits of a code, in either case. *)
Lemma numeral_shape :
  exists f,
    (forall d, 0 <= d < 16 -> hex_digit (f (digit_char d)) = Some d) /\
    numeral = string_map f (utoa 16 DIGITS c).
Proof.
  destruct numeral_digits as [-> | ->].
  - exists (fun ch => ch). split; [apply hex_digit_upper |].
    now apply fmt_X_numeral.
  - exists lower_hex. split; [apply hex_digit_lower |].
    apply fmt_lx_numeral; [assumption |].
    pose proof (ULONG_MAX_bound long_bits long_width).
    unfold is_revcode_32, UINT_MODULUS in c_range. lia.
Qed.

Lemma numeral_facts :
  all_hex numeral = true /\ numeral <> EmptyString /\
  (String.length numeral <= 8)%nat /\
  forall w, str_to_revision long_bits numeral w = (Returned c, w).
Proof.
  destruct numeral_shape as [f [Hf ->]].
  split; [apply numeral_all_hex; exact Hf |].
  split; [apply (numeral_not_empty f 31) |].
  split; [now apply revcode_numeral_length |].
  intros w.
  pose proof (str_to_revision_numeral f long_bits c EmptyString EmptyString
                w Hf long_width c_range eq_refl (or_introl eq_refl))
    as Hparse.
  cbn [append] in Hparse. now rewrite string_app_nil_r in Hparse.
Qed.

Variables before : list string.
Variable after : string.
Hypothesis before_other : Forall (fun l => other_line l = true) before.

Let file : string :=
  text_of_lines before ++
  "Revision" ++ tab ++ ": " ++ numeral ++ nl ++ after.

Lemma read_proc_cpuinfo_finds (w : world) :
  read_proc_cpuinfo (Some file) EmptyString 32 w =
  (Returned (EXIT_SUCCESS, numeral), w).
Proof.
  destruct numeral_facts as [Hhex [Hne [Hlen _]]].
  unfold read_proc_cpuinfo. change (32 <=? 0) with false. cbv iota zeta.
  change (to_int (32 - 1) <=? 0) with false. cbv iota.
  change (Z.to_nat (to_int (32 - 1))) with 31%nat.
  unfold file. rewrite first_revision_skips by assumption.
  change ("Revision" ++ tab ++ ": " ++ numeral ++ nl ++ after)
    with (("Revision" ++ tab ++ ": " ++ numeral) ++ nl ++ after).
  rewrite fgets_lines_line.
  - cbn [first_revision].
    change (("Revision" ++ tab ++ ": " ++ numeral) ++ nl)
      with ("Revision" ++ tab ++ ": " ++ numeral ++ nl).
    rewrite sscanf_revision_line by (assumption || lia).
    reflexivity.
  - change (no_newline ("Revision" ++ tab ++ ": " ++ numeral))
      with (no_newline numeral).
    now apply hex_no_newline.
  - change (LINE_SIZE - 1)%nat with 255%nat.
    cbn [append String.length tab]. lia.
Qed.

Lemma process_proc_cpuinfo_decodes (print_json : bool) (w : world) :
  process_proc_cpuinfo long_bits (Some file) print_json w =
  render print_json c w.
Proof.
  destruct numeral_facts as [_ [_ [Hlen Hparse]]].
  unfold process_proc_cpuinfo. cbv zeta. unfold bind at 1.
  rewrite read_proc_cpuinfo_finds. cbn [fst snd].
  change (EXIT_SUCCESS =? EXIT_FAILURE) with false. cbv iota.
  apply process_one_code; [lia | apply Hparse].
Qed.

End HostRevision.

Section MainDispatch.

Variable long_bits : Z.
Variable cpuinfo : option string.
Variable name : string.

Lemma main_no_code (argv : list string) (print_json : bool) :
  argv = [name] /\ print_json = false \/
  argv = [name; "-j"] /\ print_json = true \/
  argv = [name; "--json"] /\ print_json = true ->
  main long_bits cpuinfo argv =
  process_proc_cpuinfo long_bits cpuinfo print_json.
Proof. intros [[-> ->] | [[-> ->] | [-> ->]]]; reflexivity. Qed.

Lemma main_one_code (code : string) (a : ascii) (tail : string) :
  code = String a tail -> Ascii.eqb a "-" = false ->
  main long_bits cpuinfo [name; code] =
    process_rev_codes long_bits [code] false /\
  main long_bits cpuinfo [name; "-j"; code] =
    process_rev_codes long_bits [code] true /\
  main long_bits cpuinfo [name; "--json"; code] =
    process_rev_codes long_bits [code] true.
Proof.
  intros -> Hdash. unfold main.
  cbn [List.length nth_error Z.of_nat Pos.of_succ_nat Pos.succ Z.gtb
       Z.compare Pos.compare Pos.compare_cont String.eqb].
  rewrite Hdash. cbn [andb orb].
  repeat split; reflexivity.
Qed.

End MainDispatch.

(** X13.  Run without a code argument (alone, or with "-j" or
    "--json"), the program decodes the code of the host: when
    /proc/cpuinfo holds, after lines that do not begin with the letter
    R and fit the line buffer, the line "Revision<tab>: <digits>" with
    the hexadecimal digits of a code in either case, [main] does
    exactly what the selected renderer does on that code, whatever
    follows in the file. *)
Theorem main_decodes_host_revision (long_bits c : Z) (numeral : string)
    (before : list string) (after name : string) (argv : list string)
    (print_json : bool) (w : world) :
  long_bits = 32 \/ long_bits = 64 ->
  is_revcode_32 c ->
  numeral = fmt_X c \/ numeral = fmt_lx long_bits c ->
  Forall (fun l => other_line l = true) before ->
  argv = [name] /\ print_json = false \/
  argv = [name; "-j"] /\ print_json = true \/
  argv = [name; "--json"] /\ print_json = true ->
  main long_bits
       (Some (text_of_lines before ++
              "Revision" ++ tab ++ ": " ++ numeral ++ nl ++ after))
       argv w =
  (if print_json then print_revision_json c else print_revision_text c) w.
Proof.
  intros Hlong Hc Hnumeral Hbefore Hargv.
  rewrite (main_no_code long_bits _ name argv print_json Hargv).
  now apply process_proc_cpuinfo_decodes.
Qed.

(** The file of a Raspberry Pi 3B, read by a 32-bit program. *)
Lemma main_decodes_host_revision_witness :
  main 32
       (Some (text_of_lines ["processor" ++ tab ++ ": 0";
                             "Hardware" ++ tab ++ ": BCM2835"] ++
              "Revision" ++ tab ++ ": " ++ "a02082" ++ nl ++
              "Serial" ++ tab ++ tab ++ ": 00000000" ++ nl))
       ["pirevision"] initial_world =
  print_revision_text 0xA02082 initial_world.
Proof.
  apply (main_decodes_host_revision
           32 0xA02082 "a02082"
           ["processor" ++ tab ++ ": 0"; "Hardware" ++ tab ++ ": BCM2835"]
           ("Serial" ++ tab ++ tab ++ ": 00000000" ++ nl)
           "pirevision" ["pirevision"] false initial_world).
  - now left.
  - unfold is_revcode_32, UINT_MODULUS. lia.
  - now right.
  - repeat constructor.
  - now left.
Defined.



(** X15.  Given one argument made of the digits of a code (as [%X] or
    [%lx] print them, with or without the prefix "0x" or "0X"), [main]
    never consults /proc/cpuinfo and does what the text renderer does
    on that code; behind "-j" or "--json" as first argument, what
    the JSON renderer does. *)
Theorem main_decodes_argument (long_bits c : Z) (cpuinfo : option string)
    (name lead numeral : string) (w : world) :
  long_bits = 32 \/ long_bits = 64 ->
  is_revcode_32 c ->
  numeral = fmt_X c \/ numeral = fmt_lx long_bits c ->
  lead = EmptyString \/ lead = "0x" \/ lead = "0X" ->
  main long_bits cpuinfo [name; lead ++ numeral] w =
    print_revision_text c w /\
  main long_bits cpuinfo [name; "-j"; lead ++ numeral] w =
    print_revision_json c w /\
  main long_bits cpuinfo [name; "--json"; lead ++ numeral] w =
    print_revision_json c w.
Proof.
  intros Hlong Hc Hnumeral Hlead.
  destruct (numeral_facts long_bits Hlong c Hc numeral Hnumeral)
    as [Hhex [Hne [Hlen _]]].
  assert (Hhead : exists a tail, lead ++ numeral = String a tail /\
                                 Ascii.eqb a "-" = false).
  { destruct Hlead as [-> | [-> | ->]]; cbn [append];
      try (do 2 eexists; split; reflexivity).
    destruct numeral as [| a tail]; [contradiction |].
    exists a, tail. split; [reflexivity |].
    cbn [all_hex] in Hhex. apply andb_prop in Hhex.
    destruct Hhex as [Ha _]. now destruct (hex_char_plain a Ha) as [_ [-> _]]. }
  destruct Hhead as [a [tail [Hcode Hdash]]].
  destruct (main_one_code long_bits cpuinfo name (lead ++ numeral) a tail
              Hcode Hdash) as [-> [-> ->]].
  assert (Hrun : forall print_json,
             process_rev_codes long_bits [lead ++ numeral] print_json w =
             render print_json c w).
  { intros print_json. unfold render.
    destruct (numeral_shape long_bits Hlong c Hc numeral Hnumeral)
      as [f [Hf ->]].
    apply process_one_code.
    - pose proof (revcode_numeral_length f c Hc).
      rewrite string_length_app.
      destruct Hlead as [-> | [-> | ->]]; cbn [String.length]; lia.
    - pose proof (str_to_revision_numeral f long_bits c EmptyString lead w
                    Hf Hlong Hc eq_refl Hlead) as Hparse.
      now rewrite string_app_nil_r in Hparse. }
  repeat split; apply Hrun.
Qed.

Lemma main_decodes_argument_witness :
  main 64 None ["pirevision"; "0xA02082"] initial_world =
    print_revision_text 0xA02082 initial_world /\
  main 64 None ["pirevision"; "-j"; "0xA02082"] initial_world =
    print_revision_json 0xA02082 initial_world.
Proof.
  destruct (main_decodes_argument 64 0xA02082 None "pirevision" "0x"
              "A02082" initial_world)
    as [Htext [Hjson _]].
  - now right.
  - unfold is_revcode_32, UINT_MODULUS. lia.
  - now left.
  - now right; left.
  - split; assumption.
Defined.

(** ** The fields do not overlap *)

Section FieldLayout.

Lemma field_of_shifted (v j k w : Z) :
  0 <= j -> 0 <= k -> 0 <= w ->
  Z.land (Z.shiftr (Z.shiftl v j) k) (Z.ones w) =
  (v * 2 ^ j / 2 ^ k) mod 2 ^ w.
Proof.
  intros Hj Hk Hw. rewrite field_div_mod by assumption.
  now rewrite Z.shiftl_mul_pow2 by assumption.
Qed.

Lemma field_of_entry (model rev mem manufacturer k w : Z) :
  0 <= k -> 0 <= w ->
  Z.land (Z.shiftr (legacy_entry model rev mem manufacturer) k) (Z.ones w) =
  Z.lor (Z.lor (Z.lor ((model * 2 ^ 4 / 2 ^ k) mod 2 ^ w)
                      ((rev * 2 ^ 0 / 2 ^ k) mod 2 ^ w))
               ((mem * 2 ^ 20 / 2 ^ k) mod 2 ^ w))
        ((manufacturer * 2 ^ 16 / 2 ^ k) mod 2 ^ w).
Proof.
  intros Hk Hw. unfold legacy_entry.
  rewrite !Z.shiftr_lor, !Z.land_lor_distr_l.
  now rewrite !field_of_shifted by lia.
Qed.

End FieldLayout.

Ltac field_arith :=
  repeat match goal with
         | |- context [2 ^ ?n] =>
             let v := eval vm_compute in (2 ^ n) in change (2 ^ n) with v
         end;
  Z.div_mod_to_equations; lia.

Lemma old_revision_map_entries (e : Z) :
  In e old_revision_map -> e <> to_int OLD_REV_NOT_VALID ->
  exists model rev mem manufacturer,
    (0 <= model < 256 /\ 0 <= rev < 16 /\
     0 <= mem < 8 /\ 0 <= manufacturer < 16) /\
    e = legacy_entry model rev mem manufacturer.
Proof.
  intros Hin Hvalid.
  exists (type_index e), (revision_index e), (physical_memory_index e),
    (manufacturer_index e).
  split.
  - pose proof (type_index_range e). pose proof (revision_index_range e).
    pose proof (physical_memory_index_range e).
    pose proof (manufacturer_index_range e). lia.
  - cbv [old_revision_map map] in Hin. cbn [In] in Hin.
    repeat (destruct Hin as [<- | Hin];
            [first [reflexivity | exfalso; apply Hvalid; reflexivity] |]).
    contradiction.
Qed.

(** X16.  The accessors invert the layout the legacy table is written
    in.  Every populated entry of the table has the shape
    [MODEL | REV | MEM | MANUFACTURER] with a model below 256, a
    revision below 16, a memory index below 8 and a manufacturer below
    16; and every value of that shape decodes to exactly these four
    indices, has processor index 0 and is not new style. *)
Theorem legacy_entry_fields :
  (forall e, In e old_revision_map -> e <> to_int OLD_REV_NOT_VALID ->
     exists model rev mem manufacturer,
       (0 <= model < 256 /\ 0 <= rev < 16 /\
        0 <= mem < 8 /\ 0 <= manufacturer < 16) /\
       e = legacy_entry model rev mem manufacturer) /\
  (forall model rev mem manufacturer,
     0 <= model < 256 -> 0 <= rev < 16 ->
     0 <= mem < 8 -> 0 <= manufacturer < 16 ->
     let v := legacy_entry model rev mem manufacturer in
     type_index v = model /\
     revision_index v = rev /\
     physical_memory_index v = mem /\
     manufacturer_index v = manufacturer /\
     processor_index v = 0 /\
     revision_new_style v = false).
Proof.
  split; [exact old_revision_map_entries |].
  intros model rev mem manufacturer Hmodel Hrev Hmem Hman. cbv zeta.
  unfold type_index, revision_index, physical_memory_index,
    manufacturer_index, processor_index, revision_new_style.
  change 0xFF with (Z.ones 8). change 0xF with (Z.ones 4).
  change 0x7 with (Z.ones 3). change 0x1 with (Z.ones 1).
  rewrite !field_of_entry by lia.
  repeat split.
  - replace ((model * 2 ^ 4 / 2 ^ 4) mod 2 ^ 8) with model by field_arith.
    replace ((rev * 2 ^ 0 / 2 ^ 4) mod 2 ^ 8) with 0 by field_arith.
    replace ((mem * 2 ^ 20 / 2 ^ 4) mod 2 ^ 8) with 0 by field_arith.
    replace ((manufacturer * 2 ^ 16 / 2 ^ 4) mod 2 ^ 8) with 0
      by field_arith.
    now rewrite !Z.lor_0_r.
  - replace ((model * 2 ^ 4 / 2 ^ 0) mod 2 ^ 4) with 0 by field_arith.
    replace ((rev * 2 ^ 0 / 2 ^ 0) mod 2 ^ 4) with rev by field_arith.
    replace ((mem * 2 ^ 20 / 2 ^ 0) mod 2 ^ 4) with 0 by field_arith.
    replace ((manufacturer * 2 ^ 16 / 2 ^ 0) mod 2 ^ 4) with 0
      by field_arith.
    now rewrite Z.lor_0_l, !Z.lor_0_r.
  - replace ((model * 2 ^ 4 / 2 ^ 20) mod 2 ^ 3) with 0 by field_arith.
    replace ((rev * 2 ^ 0 / 2 ^ 20) mod 2 ^ 3) with 0 by field_arith.
    replace ((mem * 2 ^ 20 / 2 ^ 20) mod 2 ^ 3) with mem by field_arith.
    replace ((manufacturer * 2 ^ 16 / 2 ^ 20) mod 2 ^ 3) with 0
      by field_arith.
    now rewrite !Z.lor_0_l, Z.lor_0_r.
  - replace ((model * 2 ^ 4 / 2 ^ 16) mod 2 ^ 4) with 0 by field_arith.
    replace ((rev * 2 ^ 0 / 2 ^ 16) mod 2 ^ 4) with 0 by field_arith.
    replace ((mem * 2 ^ 20 / 2 ^ 16) mod 2 ^ 4) with 0 by field_arith.
    replace ((manufacturer * 2 ^ 16 / 2 ^ 16) mod 2 ^ 4)
      with manufacturer by field_arith.
    now rewrite !Z.lor_0_l.
  - replace ((model * 2 ^ 4 / 2 ^ 12) mod 2 ^ 4) with 0 by field_arith.
    replace ((rev * 2 ^ 0 / 2 ^ 12) mod 2 ^ 4) with 0 by field_arith.
    replace ((mem * 2 ^ 20 / 2 ^ 12) mod 2 ^ 4) with 0 by field_arith.
    replace ((manufacturer * 2 ^ 16 / 2 ^ 12) mod 2 ^ 4) with 0
      by field_arith.
    reflexivity.
  - replace ((model * 2 ^ 4 / 2 ^ 23) mod 2 ^ 1) with 0 by field_arith.
    replace ((rev * 2 ^ 0 / 2 ^ 23) mod 2 ^ 1) with 0 by field_arith.
    replace ((mem * 2 ^ 20 / 2 ^ 23) mod 2 ^ 1) with 0 by field_arith.
    replace ((manufacturer * 2 ^ 16 / 2 ^ 23) mod 2 ^ 1) with 0
      by field_arith.
    reflexivity.
Qed.

(** At the entry of the legacy code 0x0013,
    [MODEL_BPLUS | REV_1_2 | MEM_512M | EMBEST]. *)
Lemma legacy_entry_fields_witness :
  type_index (legacy_entry 3 0 1 2) = 3 /\
  manufacturer_index (legacy_entry 3 0 1 2) = 2.
Proof.
  destruct legacy_entry_fields as [_ Hfields].
  destruct (Hfields 3 0 1 2 ltac:(lia) ltac:(lia) ltac:(lia) ltac:(lia))
    as [Htype [_ [_ [Hman _]]]].
  split; assumption.
Defined.
